(** * A shallow embedding of the RayTracer illumination engine

    The development follows [src/src/RayTracer.cpp].  The C++ type [double]
    is kept abstract behind the interface [Double]; the code is translated
    once, over that interface, and read at two instances:

    - [float_Double]: IEEE 754 binary64 (Rocq's primitive floats), which is
      what the compiled program computes with, and what every concrete
      evaluation below uses;
    - [R_Double]: the real numbers, used where a statement is about the
      idealised arithmetic only.

    Structural theorems are proved for every instance. *)

From Stdlib Require Import ZArith List Bool Lia.
From Stdlib Require Import Floats Uint63.
From Stdlib Require Import Reals Lra Psatz.
Import ListNotations.

Set Implicit Arguments.

(* ================================================================= *)
(** ** The scalar interface *)

(** Operations of the C++ type [double] that the renderer uses. *)
Class Double (D : Type) : Type := {
  d_of_int : Z -> D;          (* int -> double conversion, and literals   *)
  d_add : D -> D -> D;
  d_sub : D -> D -> D;
  d_mul : D -> D -> D;
  d_div : D -> D -> D;
  d_opp : D -> D;
  d_sqrt : D -> D;            (* sqrt of <math.h>                         *)
  d_ltb : D -> D -> bool;     (* a < b                                    *)
  d_leb : D -> D -> bool;     (* a <= b                                   *)
  d_eqb : D -> D -> bool;     (* a == b                                   *)
  d_single : D -> D;          (* rounding to the type float, after which
                                 the value is promoted back to double     *)
  d_max : D                   (* numeric_limits<double>::max()            *)
}.

Declare Scope double_scope.
Delimit Scope double_scope with D.
Infix "+" := d_add : double_scope.
Infix "-" := d_sub : double_scope.
Infix "*" := d_mul : double_scope.
Infix "/" := d_div : double_scope.
Notation "- x" := (d_opp x) : double_scope.
Infix "<?" := d_ltb : double_scope.
Infix "<=?" := d_leb : double_scope.
Infix "=?" := d_eqb : double_scope.
Notation "x >? y" := (d_ltb y x) (only parsing) : double_scope.
Notation "x >=? y" := (d_leb y x) (only parsing) : double_scope.
Notation "x !=? y" := (negb (d_eqb x y)) (at level 70) : double_scope.

(** [<] is a strict order: all that the search for the nearest hit asks
    of the type [double]. *)
Class OrderedDouble (D : Type) `{Double D} : Prop := {
  d_ltb_irrefl : forall a : D, (a <? a)%D = false;
  d_ltb_trans :
    forall a b c : D,
      (a <? b)%D = true -> (b <? c)%D = true -> (a <? c)%D = true
}.
Arguments OrderedDouble D {_}.

(** Constants and library functions that [RayTracer.cpp] takes from
    headers which are not among the sources ([Material.h], [Ray.h],
    [<cstdlib>], [<cmath>]); they stay parameters. *)
Class Platform (D : Type) : Type := {
  NOT_SHINY : D;
  NOT_REFLECTIVE : D;
  NOT_REFRACTIVE : D;
  AIR_REFRACTIVE_INDEX : D;
  RAND_MAX : Z;
  pow : D -> D -> D;          (* pow of <cmath>                           *)
  rand : nat -> Z             (* the n-th value that rand() returns       *)
}.

(* ----------------------------------------------------------------- *)
(** *** binary64 *)

(** [int] to [double]; exact on the whole range of a 32-bit [int]. *)
Definition float_of_Z (z : Z) : float :=
  if (z <? 0)%Z
  then PrimFloat.opp (PrimFloat.of_uint63 (Uint63.of_Z (- z)))
  else PrimFloat.of_uint63 (Uint63.of_Z z).

(** Rounding of a binary64 value to the nearest binary32 value (precision
    24, maximal exponent 128), ties to even. *)
Definition round_single (x : float) : float :=
  match Prim2SF x with
  | S754_finite s m e =>
      SF2Prim (binary_normalize 24 128 (if s then Zneg m else Zpos m) e s)
  | _ => x
  end.

(** The largest finite binary64 value. *)
Definition DBL_MAX : float := 0x1.fffffffffffffp+1023%float.

#[export] Instance float_Double : Double float := {
  d_of_int := float_of_Z;
  d_add := PrimFloat.add;
  d_sub := PrimFloat.sub;
  d_mul := PrimFloat.mul;
  d_div := PrimFloat.div;
  d_opp := PrimFloat.opp;
  d_sqrt := PrimFloat.sqrt;
  d_ltb := PrimFloat.ltb;
  d_leb := PrimFloat.leb;
  d_eqb := PrimFloat.eqb;
  d_single := round_single;
  d_max := DBL_MAX
}.

(* ----------------------------------------------------------------- *)
(** *** Real numbers *)

Definition Rltb (x y : R) : bool := if Rlt_dec x y then true else false.
Definition Rleb (x y : R) : bool := if Rle_dec x y then true else false.
Definition Reqb (x y : R) : bool := if Req_dec_T x y then true else false.

#[export] Instance R_Double : Double R := {
  d_of_int := IZR;
  d_add := Rplus;
  d_sub := Rminus;
  d_mul := Rmult;
  d_div := Rdiv;
  d_opp := Ropp;
  d_sqrt := sqrt;
  d_ltb := Rltb;
  d_leb := Rleb;
  d_eqb := Reqb;
  d_single := fun x => x;
  d_max := IZR (2 ^ 1024 - 2 ^ 971)
}.

(* ================================================================= *)
(** ** Value types *)

Section ValueTypes.
Context {D : Type} `{Double D}.
Local Open Scope double_scope.

(** Arithmetic carried out in the type [float]: the operands are
    floats, the result is rounded to float. *)
Definition float_of_int (z : Z) : D := d_single (d_of_int z).
Definition float_mul (a b : D) : D := d_single (a * b).
Definition float_div (a b : D) : D := d_single (a / b).

(** Modelled from the spec: [Vector.h] is not among the sources.  A
    vector has three real components with add, subtract,
    scalar-multiply, dot product, length and normalize. *)
Record Vector : Type := mkVector { x : D; y : D; z : D }.

Definition Vector_add (a b : Vector) : Vector :=
  mkVector (x a + x b) (y a + y b) (z a + z b).
Definition Vector_sub (a b : Vector) : Vector :=
  mkVector (x a - x b) (y a - y b) (z a - z b).
Definition Vector_scale (a : Vector) (s : D) : Vector :=
  mkVector (x a * s) (y a * s) (z a * s).
Definition dot (a b : Vector) : D :=
  x a * x b + y a * y b + z a * z b.
Definition length (a : Vector) : D := d_sqrt (dot a a).
Definition normalize (a : Vector) : Vector :=
  let l := length a in mkVector (x a / l) (y a / l) (z a / l).

(** Modelled from the spec: [Color.h] is not among the sources.  A
    color has three real channels with add and scalar-multiply; the
    default color is black. *)
Record Color : Type := mkColor { r : D; g : D; b : D }.

Definition Color_default : Color :=
  mkColor (d_of_int 0) (d_of_int 0) (d_of_int 0).
Definition Color_add (a c : Color) : Color :=
  mkColor (r a + r c) (g a + g c) (b a + b c).
Definition Color_scale (a : Color) (s : D) : Color :=
  mkColor (r a * s) (g a * s) (b a * s).
End ValueTypes.

Arguments Vector D : clear implicits.
Arguments Color D : clear implicits.

Declare Scope vector_scope.
Delimit Scope vector_scope with V.
Infix "+" := Vector_add : vector_scope.
Infix "-" := Vector_sub : vector_scope.
Infix "*" := Vector_scale : vector_scope.

Declare Scope color_scope.
Delimit Scope color_scope with C.
Infix "+" := Color_add : color_scope.
Infix "*" := Color_scale : color_scope.

(* ================================================================= *)
(** ** The scene *)

Section Scene.
Variable D : Type.

(** Modelled from the spec: [Ray.h] is not among the sources.  A ray
    has an origin, a direction, a remaining-bounce counter and the
    refractive index of the medium it travels through; the field names
    are those that [RayTracer.cpp] reads. *)
Record Ray : Type := mkRay {
  origin : Vector D;
  direction : Vector D;
  reflectionsRemaining : Z;
  refractiveIndex : D
}.

(** Modelled from the spec: [Material.h] is not among the sources.  A
    material answers color-at-hit-point, shininess, reflectivity and
    refractive index, each of the last three possibly a sentinel. *)
Record Material : Type := mkMaterial {
  getColor : Vector D -> Color D;
  getShininess : D;
  getReflectivity : D;
  getRefractiveIndex : D
}.

(** Modelled from the spec: [Light.h] is not among the sources.  A
    point light has a position and a scalar intensity. *)
Record Light : Type := mkLight {
  position : Vector D;
  intensity : D
}.

(** Modelled from the spec: [Intersection.h] is not among the sources.
    A result value: the hit flag and, for a hit, the distance along the
    ray, the hit point ([intersection]), the surface normal, the
    originating ray and the material.  [RayTracer.cpp] reads the fields
    other than [didIntersect] and [distance] only on a hit. *)
Record Intersection : Type := mkIntersection {
  didIntersect : bool;
  distance : D;
  intersection : Vector D;
  normal : Vector D;
  ray : Ray;
  material : Material
}.

(** Modelled from the spec: [Object.h] and the code of the Sphere are
    not among the sources.  An object answers [intersect]; a reported
    hit refers to the ray it was asked about ("reference to the
    material and the originating ray"). *)
Record Object : Type := mkObject {
  intersect : Ray -> Intersection;
  intersect_ray :
    forall q, didIntersect (intersect q) = true -> ray (intersect q) = q
}.

(** Modelled from the spec: [Camera.h] is not among the sources.  Of
    the camera, the position, the look-at target and the two basis
    vectors that [castRayForPixel] reads. *)
Record Camera : Type := mkCamera {
  cam_position : Vector D;
  cam_lookAt : Vector D;
  cam_u : Vector D;
  cam_v : Vector D
}.

(** The fields of the class RayTracer that the renderer reads.
    [raysCast] is threaded separately, see [Counters]. *)
Record RayTracer : Type := mkRayTracer {
  width : Z;
  height : Z;
  maxReflections : Z;
  superSamples : Z;
  camera : Camera;
  imageScale : D;
  depthComplexity : Z;
  dispersion : D;
  objects : list Object;
  lights : list Light
}.

Definition set_depthComplexity (rt : RayTracer) (n : Z) : RayTracer :=
  mkRayTracer (width rt) (height rt) (maxReflections rt) (superSamples rt)
    (camera rt) (imageScale rt) n (dispersion rt) (objects rt) (lights rt).

(** Modelled from the spec: [intersection.getColor()] is the color that
    the material resolves at the hit point. *)
Definition Intersection_getColor (i : Intersection) : Color D :=
  getColor (material i) (intersection i).
End Scene.

Arguments Ray D : clear implicits.
Arguments Material D : clear implicits.
Arguments Light D : clear implicits.
Arguments Intersection D : clear implicits.
Arguments Object D : clear implicits.
Arguments Camera D : clear implicits.
Arguments RayTracer D : clear implicits.

(* ================================================================= *)
(** ** Mutable state and the monad of the renderer *)

(** What a render mutates: the diagnostic counter [raysCast] (an
    [unsigned long long], so it wraps at 2^64) and the position in the
    sequence of values that [rand()] returns. *)
Record Counters : Type := mkCounters {
  raysCast : Z;
  randCalls : nat
}.

Definition ULLONG_MODULUS : Z := 2 ^ 64.

(** A computation reads and updates the counters; [None] means that the
    recursion allowance handed to [castRay] ran out. *)
Definition M (A : Type) : Type := Counters -> option (A * Counters).

Definition ret {A} (a : A) : M A := fun s => Some (a, s).

Definition bind {A B} (m : M A) (k : A -> M B) : M B :=
  fun s => match m s with
           | Some (a, s') => k a s'
           | None => None
           end.

Declare Scope monad_scope.
Delimit Scope monad_scope with M.
Notation "v <- m ;; k" := (bind m (fun v => k))
  (at level 61, m at next level, right associativity) : monad_scope.
Notation "m ;;; k" := (bind m (fun _ => k))
  (at level 61, right associativity) : monad_scope.

(** [raysCast++] *)
Definition incr_raysCast : M unit :=
  fun s => Some (tt, mkCounters ((raysCast s + 1) mod ULLONG_MODULUS) (randCalls s)).

(** [for (int i = 0; i < n; i++) acc = body(i, acc);] *)
Fixpoint for_from {A} (todo : nat) (i : Z) (body : Z -> A -> M A) (acc : A) : M A :=
  match todo with
  | O => ret acc
  | S todo' => bind (body i acc) (for_from todo' (i + 1) body)
  end.

Definition for_int {A} (n : Z) (body : Z -> A -> M A) (acc : A) : M A :=
  for_from (Z.to_nat n) 0 body acc.

(* ================================================================= *)
(** ** The illumination engine ([RayTracer.cpp]) *)

Section Engine.
Context {D : Type} `{Double D} `{Platform D}.
Local Open Scope double_scope.

Variable rt : RayTracer D.

(** Modelled from the spec: [Intersection.h] is not among the sources.
    [Intersection(false)] is a miss; its fields other than the flag are
    never read by the renderer and are filled with defaults. *)
Definition Material_none : Material D :=
  mkMaterial (fun _ => Color_default) NOT_SHINY NOT_REFLECTIVE NOT_REFRACTIVE.

Definition Vector_default : Vector D :=
  mkVector (d_of_int 0) (d_of_int 0) (d_of_int 0).

Definition Ray_default : Ray D :=
  mkRay Vector_default Vector_default 0 (d_of_int 0).

Definition Intersection_miss : Intersection D :=
  mkIntersection false (d_of_int 0) Vector_default Vector_default
    Ray_default Material_none.

Definition set_distance (i : Intersection D) (d : D) : Intersection D :=
  mkIntersection (didIntersect i) d (intersection i) (normal i) (ray i)
    (material i).

(** [Intersection closestIntersection(false);
     closestIntersection.distance = numeric_limits<double>::max();]
    the value that [getClosestIntersection] starts from. *)
Definition noIntersection : Intersection D :=
  set_distance Intersection_miss d_max.

(** [RayTracer::isInShadow] *)
Fixpoint isInShadow_from (objs : list (Object D)) (q : Ray D)
    (lightDistance : D) : bool :=
  match objs with
  | [] => false
  | o :: rest =>
      let i := intersect o q in
      if didIntersect i && (distance i <? lightDistance)
      then true
      else isInShadow_from rest q lightDistance
  end.

Definition isInShadow (q : Ray D) (lightDistance : D) : bool :=
  isInShadow_from (objects rt) q lightDistance.

(** [RayTracer::getClosestIntersection]: one turn of the loop, and the
    loop over [objects]. *)
Definition closer (q : Ray D) (closestIntersection : Intersection D)
    (o : Object D) : Intersection D :=
  let i := intersect o q in
  if didIntersect i && (distance i <? distance closestIntersection)
  then i
  else closestIntersection.

Definition getClosestIntersection_from (objs : list (Object D)) (q : Ray D)
    : Intersection D :=
  fold_left (closer q) objs noIntersection.

Definition getClosestIntersection (q : Ray D) : Intersection D :=
  getClosestIntersection_from (objects rt) q.

(** [RayTracer::getAmbientLighting]; the literal is [0.2]. *)
Definition ambientCoefficient : D := d_of_int 2 / d_of_int 10.

Definition getAmbientLighting (i : Intersection D) (color : Color D)
    : Color D :=
  (color * ambientCoefficient)%C.

(** [RayTracer::reflectVector] *)
Definition reflectVector (vector nrm : Vector D) : Vector D :=
  (nrm * d_of_int 2 * dot vector nrm - vector)%V.

(** [RayTracer::getSpecularLighting] *)
Definition getSpecularLighting (i : Intersection D) (light : Light D)
    : Color D :=
  let specularColor := mkColor (d_of_int 0) (d_of_int 0) (d_of_int 0) in
  let shininess := getShininess (material i) in
  if shininess =? NOT_SHINY then specularColor
  else
    let view := normalize (origin (ray i) - intersection i)%V in
    let lightOffset := (position light - intersection i)%V in
    let reflected := reflectVector (normalize lightOffset) (normal i) in
    let dt := dot view reflected in
    if dt <=? d_of_int 0 then specularColor
    else
      let specularAmount := pow dt shininess * intensity light in
      mkColor specularAmount specularAmount specularAmount.

(** [RayTracer::getDiffuseAndSpecularLighting]: one turn of the loop
    over the lights, on the pair [(diffuseColor, specularColor)]. *)
Definition lightTurn (i : Intersection D) (color : Color D)
    (acc : Color D * Color D) (light : Light D) : Color D * Color D :=
  let (diffuseColor, specularColor) := acc in
  let lightOffset := (position light - intersection i)%V in
  let lightDistance := length lightOffset in
  let lightDirection := normalize lightOffset in
  let dotProduct := dot (normal i) lightDirection in
  if dotProduct >=? d_of_int 0 then
    let shadowRay :=
      mkRay (intersection i) lightDirection 1 (refractiveIndex (ray i)) in
    if isInShadow shadowRay lightDistance then acc
    else
      (((diffuseColor + color * dotProduct) * intensity light)%C,
       (specularColor + getSpecularLighting i light)%C)
  else acc.

Definition diffuseAndSpecularColors (i : Intersection D) (color : Color D)
    : Color D * Color D :=
  fold_left (lightTurn i color) (lights rt)
    (mkColor (d_of_int 0) (d_of_int 0) (d_of_int 0),
     mkColor (d_of_int 0) (d_of_int 0) (d_of_int 0)).

Definition getDiffuseAndSpecularLighting (i : Intersection D)
    (color : Color D) : Color D :=
  let (diffuseColor, specularColor) := diffuseAndSpecularColors i color in
  (diffuseColor + specularColor)%C.

(** [RayTracer::getReflectance] *)
Definition getReflectance (nrm incident : Vector D) (n1 n2 : D) : D :=
  let n := n1 / n2 in
  let cosI := - dot nrm incident in
  let sinT2 := n * n * (d_of_int 1 - cosI * cosI) in
  if sinT2 >? d_of_int 1 then d_of_int 1
  else
    let cosT := d_sqrt (d_of_int 1 - sinT2) in
    let r0rth := (n1 * cosI - n2 * cosT) / (n1 * cosI + n2 * cosT) in
    let rPar := (n2 * cosI - n1 * cosT) / (n2 * cosI + n1 * cosT) in
    (r0rth * r0rth + rPar * rPar) / d_of_int 2.

(** [RayTracer::getReflectiveRefractiveLighting].  The three locals that
    decide the branches: *)
Definition reflectivePercentage (i : Intersection D) : D :=
  let refractiveIdx := getRefractiveIndex (material i) in
  if refractiveIdx !=? NOT_REFRACTIVE
  then getReflectance (normal i) (direction (ray i))
         AIR_REFRACTIVE_INDEX refractiveIdx
  else getReflectivity (material i).

Definition refractivePercentage (i : Intersection D) : D :=
  let refractiveIdx := getRefractiveIndex (material i) in
  if refractiveIdx !=? NOT_REFRACTIVE
  then d_of_int 1 - reflectivePercentage i
  else d_of_int 0.

Definition noReflectiveRefractiveLighting (i : Intersection D) : bool :=
  (getReflectivity (material i) =? NOT_REFLECTIVE)
    && (getRefractiveIndex (material i) =? NOT_REFRACTIVE)
  || (reflectionsRemaining (ray i) <=? 0)%Z.

(** The ray spawned for the reflection. *)
Definition reflectedRay (i : Intersection D) : Ray D :=
  let reflected := reflectVector (origin (ray i)) (normal i) in
  mkRay (intersection i) reflected (reflectionsRemaining (ray i) - 1)
    (refractiveIndex (ray i)).

Section OpenRecursion.
(** [castRay], as seen from the functions it calls. *)
Variable castRay : Ray D -> M (Color D).
Local Open Scope monad_scope.

(** The locals [reflectiveColor] and [refractiveColor] at the [return]
    statement.  The body of [if (refractivePercentage > 0)] is
    commented out in the source, so that branch leaves
    [refractiveColor] as constructed. *)
Definition reflectiveAndRefractiveColors (i : Intersection D)
    : M (Color D * Color D) :=
  let reflectivity := getReflectivity (material i) in
  reflectiveColor <-
    (if reflectivePercentage i >? d_of_int 0
     then c <- castRay (reflectedRay i) ;; ret (c * reflectivity)%C
     else ret Color_default) ;;
  let refractiveColor :=
    if refractivePercentage i >? d_of_int 0
    then Color_default
    else Color_default in
  ret (reflectiveColor, refractiveColor).

Definition getReflectiveRefractiveLighting (i : Intersection D)
    : M (Color D) :=
  if noReflectiveRefractiveLighting i then ret Color_default
  else if (refractivePercentage i <=? d_of_int 0)
            && (reflectivePercentage i <=? d_of_int 0)
  then ret Color_default
  else
    colors <- reflectiveAndRefractiveColors i ;;
    ret (fst colors + snd colors)%C.

(** [RayTracer::performLighting] *)
Definition performLighting (i : Intersection D) : M (Color D) :=
  let color := Intersection_getColor i in
  let ambientColor := getAmbientLighting i color in
  let diffuseAndSpecularColor := getDiffuseAndSpecularLighting i color in
  reflectedColor <- getReflectiveRefractiveLighting i ;;
  ret (ambientColor + diffuseAndSpecularColor + reflectedColor)%C.

(** The body of [RayTracer::castRay]. *)
Definition castRay_body (q : Ray D) : M (Color D) :=
  incr_raysCast ;;;
  let i := getClosestIntersection q in
  if didIntersect i then performLighting i else ret Color_default.
End OpenRecursion.

(** [RayTracer::castRay].  [depth] bounds the nesting of calls: a call
    at depth [0] is refused. *)
Fixpoint castRay (depth : nat) (q : Ray D) : M (Color D) :=
  match depth with
  | O => fun _ => None
  | S depth' => castRay_body (castRay depth') q
  end.

(** A call of [castRay] from the sampling code: the allowance is one
    more than the bounce budget of the ray, which always suffices (see
    [castRay_within]). *)
Definition castRay_top (q : Ray D) : M (Color D) :=
  castRay (S (Z.to_nat (reflectionsRemaining q))) q.

(** [rand()] *)
Definition next_rand : M Z :=
  fun s => Some (rand (randCalls s), mkCounters (raysCast s) (S (randCalls s))).

Local Open Scope monad_scope.

(** [RayTracer::castRayAtPoint]: the ray of one turn of the loop.  The
    two calls of [rand()] are taken in the order they are written. *)
Definition viewRayAt (point : Vector D) : M (Ray D) :=
  let viewRay :=
    mkRay (cam_position (camera rt)) (point - cam_position (camera rt))%V
      (maxReflections rt) AIR_REFRACTIVE_INDEX in
  if (depthComplexity rt >? 1)%Z then
    r1 <- next_rand ;;
    r2 <- next_rand ;;
    let disturbance :=
      mkVector
        ((dispersion rt / d_of_int RAND_MAX)
           * float_mul (float_of_int 1) (float_of_int r1))
        ((dispersion rt / d_of_int RAND_MAX)
           * float_mul (float_of_int 1) (float_of_int r2))
        (float_of_int 0) in
    let origin' := (origin viewRay + disturbance)%V in
    let direction' := normalize (point - origin')%V in
    ret (mkRay origin' direction' (reflectionsRemaining viewRay)
           (refractiveIndex viewRay))
  else ret viewRay.

Definition castRayAtPoint (point : Vector D) : M (Color D) :=
  for_int (depthComplexity rt)
    (fun _ color =>
       viewRay <- viewRayAt point ;;
       c <- castRay_top viewRay ;;
       ret (color + c * float_div (float_of_int 1)
                          (float_of_int (depthComplexity rt)))%C)
    Color_default.

(** [RayTracer::castRayForPixel]; [int] division truncates. *)
Definition castRayForPixel (px py : Z) : M (Color D) :=
  let rayX : D := d_of_int (px - width rt ÷ 2) / d_of_int 2 in
  let rayY : D := d_of_int (py - height rt ÷ 2) / d_of_int 2 in
  let pixelWidth := rayX - d_of_int (px + 1 - width rt ÷ 2) / d_of_int 2 in
  let sampleWidth := pixelWidth / d_of_int (superSamples rt) in
  let sampleStartX := rayX - pixelWidth / d_of_int 2 in
  let sampleStartY := rayY - pixelWidth / d_of_int 2 in
  let sampleWeight :=
    d_of_int 1 / d_of_int (superSamples rt * superSamples rt) in
  for_int (superSamples rt)
    (fun sx color =>
       for_int (superSamples rt)
         (fun sy color =>
            let imagePlanePoint :=
              (cam_lookAt (camera rt)
               - cam_u (camera rt) * (sampleStartX + d_of_int sx * sampleWidth)%D
                   * imageScale rt
               + cam_v (camera rt) * (sampleStartY + d_of_int sy * sampleWidth)%D
                   * imageScale rt)%V in
            c <- castRayAtPoint imagePlanePoint ;;
            ret (color + c * sampleWeight)%C)
         color)
    Color_default.
End Engine.

(* ================================================================= *)
(** ** The render pass *)

Section Render.
Context {D : Type} `{Double D} `{Platform D}.
Local Open Scope double_scope.
Local Open Scope monad_scope.

(** Modelled from the spec: [Image.h] is not among the sources.  The
    raster buffer is an external collaborator; the image is kept as the
    list of the pixel writes, latest first. *)
Definition Image : Type := list (Z * Z * Color D).

Definition Image_pixel (image : Image) (px py : Z) (c : Color D) : Image :=
  (px, py, c) :: image.

(** The statement that opens [RayTracer::traceRays]:
    [if (dispersion < 0) depthComplexity = 1;] *)
Definition resetDepthComplexity (rt : RayTracer D) : RayTracer D :=
  if dispersion rt <? d_of_int 0 then set_depthComplexity rt 1 else rt.

(** [RayTracer::traceRays]: the columns are taken in order, the
    progress report and the encoding of the file are left out.  The
    result holds the image and the tracer as the pass leaves it. *)
Definition traceRays (rt : RayTracer D) : M (Image * RayTracer D) :=
  let rt' := resetDepthComplexity rt in
  image <-
    for_int (width rt')
      (fun px image =>
         for_int (height rt')
           (fun py image =>
              c <- castRayForPixel rt' px py ;;
              ret (Image_pixel image px py c))
           image)
      [] ;;
  ret (image, rt').
End Render.

(* ================================================================= *)
(** ** A reference platform for concrete evaluation *)

(** The sentinels are [-1] and the refractive index of air is [1]; [pow]
    and the sequence of [rand()] are left to the caller. *)
Definition reference_Platform (pw : float -> float -> float) (rnd : nat -> Z)
    : Platform float := {|
  NOT_SHINY := (-1)%float;
  NOT_REFLECTIVE := (-1)%float;
  NOT_REFRACTIVE := (-1)%float;
  AIR_REFRACTIVE_INDEX := 1%float;
  RAND_MAX := 2147483647;
  pow := pw;
  rand := rnd
|}.

(* ================================================================= *)
(** ** Notions that the statements below use *)

Section Notions.
Context {D : Type} `{Double D} `{Platform D}.
Local Open Scope double_scope.

(** The shadow test as the specification words it: a scan of every
    object, asking whether any reports a hit strictly closer than the
    light. *)
Definition blocks (q : Ray D) (lightDistance : D) (o : Object D) : bool :=
  didIntersect (intersect o q) && (distance (intersect o q) <? lightDistance).

Definition isInShadow_fullScan (rt : RayTracer D) (q : Ray D)
    (lightDistance : D) : bool :=
  existsb (blocks q lightDistance) (objects rt).

(** An object reports a hit for the ray, at a distance strictly below
    the bound [d]. *)
Definition hitBelow (q : Ray D) (d : D) (o : Object D) : Prop :=
  didIntersect (intersect o q) = true
  /\ (distance (intersect o q) <? d) = true.

(** The counters after [n] more calls of [castRay]. *)
Definition afterRays (n : Z) (s : Counters) : Counters :=
  mkCounters ((raysCast s + n) mod ULLONG_MODULUS) (randCalls s).
End Notions.

(** A computation that returns from every state. *)
Definition returns {A} (m : M A) : Prop :=
  forall s, exists res, m s = Some res.

(** Two binary64 values that are the same number: identical, or equal
    under [==] (the two zeros). *)
Definition sameNumber (a c : float) : Prop :=
  a = c \/ PrimFloat.eqb c a = true.

Section DiffuseAsSpecified.
Context {D : Type} `{Double D} `{Platform D}.
Local Open Scope double_scope.

Variable rt : RayTracer D.

(** The diffuse term as the specification words it: over the lights that
    face the surface and are not blocked, the sum of
    (resolved color x max(0, normal . lightDirection)) x light.intensity,
    each light scaled by its own intensity only. *)
Definition lightDirectionAt (i : Intersection D) (light : Light D) : Vector D :=
  normalize (position light - intersection i)%V.

Definition facesAndReaches (i : Intersection D) (light : Light D) : bool :=
  (dot (normal i) (lightDirectionAt i light) >=? d_of_int 0)
  && negb (isInShadow rt
             (mkRay (intersection i) (lightDirectionAt i light) 1
                (refractiveIndex (ray i)))
             (length (position light - intersection i)%V)).

Definition max0 (a : D) : D := if a <? d_of_int 0 then d_of_int 0 else a.

Definition diffuseOfLight (i : Intersection D) (color : Color D)
    (light : Light D) : Color D :=
  (color * max0 (dot (normal i) (lightDirectionAt i light))
   * intensity light)%C.

Definition diffuse_asSpecified (i : Intersection D) (color : Color D)
    : Color D :=
  fold_left
    (fun sum light =>
       if facesAndReaches i light
       then (sum + diffuseOfLight i color light)%C
       else sum)
    (lights rt)
    (mkColor (d_of_int 0) (d_of_int 0) (d_of_int 0)).
End DiffuseAsSpecified.

(* ================================================================= *)
(** ** Concrete scenes, in binary64 *)

Module Scenes.
Local Open Scope float_scope.

(** [pow] is not called in these scenes (no material is shiny); the
    sequence of [rand()] is that of a linear congruential generator. *)
Definition lcg (n : nat) : Z :=
  ((Z.of_nat n * 1103515245 + 12345) mod 2147483648)%Z.

#[export] Instance platform : Platform float :=
  reference_Platform (fun _ _ => nan) lcg.

Definition white : Color float := mkColor 1 1 1.

(** [FlatColor 1 1 1 -1 -1 -1]: white, not shiny, not reflective, not
    refractive. *)
Definition matte : Material float := mkMaterial (fun _ => white) (-1) (-1) (-1).

(** [FlatColor 1 1 1 -1 0.5 1.5]: reflectivity one half, refractive index
    three halves. *)
Definition glass : Material float :=
  mkMaterial (fun _ => white) (-1) (1 / 2) (3 / 2).

Definition eye : Camera float :=
  mkCamera (mkVector 0 0 5) (mkVector 0 0 0) (mkVector 1 0 0) (mkVector 0 1 0).

(** A ray from the eye straight down the z axis, with three bounces. *)
Definition downRay : Ray float :=
  mkRay (mkVector 0 0 5) (mkVector 0 0 (-1)) 3 1.

(** A hit of [downRay] at the origin, on a surface that faces up. *)
Definition hitOn (m : Material float) : Intersection float :=
  mkIntersection true 5 (mkVector 0 0 0) (mkVector 0 0 1) downRay m.

(** An object that every ray hits, at distance [d] along the ray, on a
    matte white surface that faces up. *)
Definition wallAt (d : float) : Object float :=
  mkObject
    (fun q => mkIntersection true d (origin q + direction q * d)%V
                (mkVector 0 0 1) q matte)
    (fun q _ => eq_refl).

(** An object that no ray hits. *)
Definition nothing : Object float :=
  mkObject (fun _ => Intersection_miss) (fun q (e : false = true) => False_ind _ (diff_false_true e)).

Definition tracer (depthCx : Z) (disp : float) (objs : list (Object float))
    (lts : list (Light float)) : RayTracer float :=
  mkRayTracer 1 1 3 1 eye 1 depthCx disp objs lts.

(** Two lights straight above the origin, of intensities 1 and 2, and
    nothing in the way. *)
Definition twoLights : RayTracer float :=
  tracer 1 5 [] [mkLight (mkVector 0 0 10) 1; mkLight (mkVector 0 0 20) 2].

(** A wall everywhere at distance 1, no light. *)
Definition walled : RayTracer float := tracer 1 5 [wallAt 1] [].

(** One object, whose hits are at the sentinel distance. *)
Definition farAway : RayTracer float := tracer 1 5 [wallAt DBL_MAX] [].

(** Hits at distances 7 and 3, and a miss. *)
Definition threeObjects : RayTracer float :=
  tracer 1 5 [wallAt 7; nothing; wallAt 3] [].

(** An empty scene seen by a lens of radius zero, with three samples per
    point of the image plane; and the same with a negative radius. *)
Definition zeroDispersion : RayTracer float := tracer 3 0 [] [].
Definition negativeDispersion : RayTracer float := tracer 3 (-1) [] [].

Definition start : Counters := mkCounters 0 0.
End Scenes.

(* ================================================================= *)
(** ** Further code of [RayTracer.cpp], and notions for its properties *)

Section Refraction.
Context {D : Type} `{Double D}.
Local Open Scope double_scope.

(** [RayTracer::refractVector]; [None] stands for the branch that prints
    "ruh roh" and calls [exit(EXIT_FAILURE)]. *)
Definition refractVector (nrm incident : Vector D) (n1 n2 : D)
    : option (Vector D) :=
  let n := n1 / n2 in
  let cosI := - dot nrm incident in
  let sinT2 := n * n * (d_of_int 1 - cosI * cosI) in
  if sinT2 >? d_of_int 1 then None
  else
    let cosT := d_sqrt (d_of_int 1 - sinT2) in
    Some (incident * n + nrm * (n * cosI - cosT)%D)%V.

(** A color whose three channels are the same value. *)
Definition gray (c : Color D) : Prop := r c = g c /\ g c = b c.
End Refraction.

(** A value that is below something is comparable with both ends of
    any strict inequality: on the values that are numbers, [<] is
    total. *)
Class WeakOrderedDouble (D : Type) `{Double D} : Prop := {
  d_ltb_between :
    forall a c m u : D,
      (a <? c)%D = true -> (m <? u)%D = true ->
      (a <? m)%D = true \/ (m <? c)%D = true
}.
Arguments WeakOrderedDouble D {_}.

(** A key for each value that is a number, ordered lexicographically as
    the values are. *)
Definition SFkey (f : spec_float) : option (Z * Z * Z) :=
  match f with
  | S754_nan => None
  | S754_zero _ => Some (0, 0, 0)%Z
  | S754_infinity s => Some (if s then (-2) else 2, 0, 0)%Z
  | S754_finite s m e =>
      Some (if s then (-1, - e, - Z.pos m) else (1, e, Z.pos m))%Z
  end.

Definition lt3 (k1 k2 : Z * Z * Z) : Prop :=
  let '(x1, y1, z1) := k1 in
  let '(x2, y2, z2) := k2 in
  (x1 < x2 \/ (x1 = x2 /\ (y1 < y2 \/ (y1 = y2 /\ z1 < z2))))%Z.

Section RenderNotions.
Context {D : Type} `{Double D}.





End RenderNotions.

(* ================================================================= *)
(** ** Reading a scene ([RayTracer::readScene] and its helpers) *)

From Stdlib Require Ascii String.
Import Ascii.AsciiSyntax String.StringSyntax.

(** What [RayTracer.cpp] asks of the [istream] it reads from: formatted
    extraction of a word, a [double] and an [int] ([in >> x], the value
    being what the library leaves in [x], also after a failure),
    [getline], and [good()]. *)
Class IStream (D Stream : Type) : Type := {
  get_string : Stream -> String.string * Stream;
  get_double : Stream -> D * Stream;
  get_int : Stream -> Z * Stream;
  getline : Stream -> String.string * Stream;
  good : Stream -> bool
}.

(** Constructors that the reader calls and whose classes are not among
    the sources ([Sphere.cpp], [Checkerboard.h]); they stay
    parameters. *)
Class SceneLibrary (D : Type) : Type := {
  Sphere_new : Vector D -> D -> Material D -> Object D;
  Checkerboard_new : Color D -> Color D -> D -> D -> D -> Material D
}.

(** The outcome of a reading function: a value, or the message written to
    [cerr] before [exit(EXIT_FAILURE)]. *)
Inductive Parse (A : Type) : Type :=
| Parsed (a : A)
| Fatal (message : String.string).
Arguments Parsed {A} a.
Arguments Fatal {A} message.

(** [isupper] in the "C" locale. *)
Definition isupper (c : Ascii.ascii) : bool :=
  (65 <=? Ascii.nat_of_ascii c)%nat && (Ascii.nat_of_ascii c <=? 90)%nat.

Definition hasUpper (name : String.string) : bool :=
  existsb isupper (String.list_ascii_of_string name).

Section Reader.
Context {D : Type} `{Double D} {Stream : Type} `{IStream D Stream} `{SceneLibrary D}.
Local Open Scope string_scope.

(** Modelled from the spec: the member [materials] is not declared in the
    header at hand; it maps a material name to a material, keys unique.
    [count], [operator[]] on a present key, and [insert], which leaves a
    present key as it is. *)
Definition Materials : Type := list (String.string * Material D).

Fixpoint Materials_find (name : String.string) (ms : Materials)
    : option (Material D) :=
  match ms with
  | [] => None
  | (k, m) :: rest =>
      if String.eqb k name then Some m else Materials_find name rest
  end.

Definition Materials_count (name : String.string) (ms : Materials) : nat :=
  match Materials_find name ms with Some _ => 1 | None => 0 end.

Definition Materials_insert (name : String.string) (m : Material D) (ms : Materials)
    : Materials :=
  match Materials_find name ms with
  | Some _ => ms
  | None => ms ++ [(name, m)]
  end.

(** Three extractions into the components of a vector or a color. *)
Definition get_three (input : Stream) : D * D * D * Stream :=
  let (a, in1) := get_double input in
  let (c, in2) := get_double in1 in
  let (e, in3) := get_double in2 in
  (a, c, e, in3).

(** Modelled from the spec: [FlatColor.h] is not among the sources; a
    flat color answers its constant color and the three properties that
    [readMaterial] stores in it. *)
Definition FlatColor_new (color : Color D)
    (shininess reflectivity refractiveIdx : D) : Material D :=
  mkMaterial (fun _ => color) shininess reflectivity refractiveIdx.

(** [RayTracer::readMaterial] *)
Definition readMaterial (input : Stream) (materials : Materials)
    : Parse (Material D * Stream) :=
  let (type, in1) := get_string input in
  if String.eqb type "FlatColor" then
    let '(cr, cg, cb, in2) := get_three in1 in
    let (shininess, in3) := get_double in2 in
    let (reflectivity, in4) := get_double in3 in
    let (refractiveIdx, in5) := get_double in4 in
    Parsed (FlatColor_new (mkColor cr cg cb) shininess reflectivity
              refractiveIdx, in5)
  else if String.eqb type "Checkerboard" then
    let '(r1, g1, b1, in2) := get_three in1 in
    let '(r2, g2, b2, in3) := get_three in2 in
    let (scale, in4) := get_double in3 in
    let (shininess, in5) := get_double in4 in
    let (reflectivity, in6) := get_double in5 in
    Parsed (Checkerboard_new (mkColor r1 g1 b1) (mkColor r2 g2 b2) scale
              shininess reflectivity, in6)
  else
    match Materials_find type materials with
    | Some material => Parsed (material, in1)
    | None => Fatal (String.append "Type not found: " type)
    end.

(** [RayTracer::addMaterial] *)
Definition addMaterial (input : Stream) (materials : Materials)
    : Parse (Materials * Stream) :=
  let (materialName, in1) := get_string input in
  if hasUpper materialName then
    Fatal (String.append "Invalid material name: " materialName)
  else if (0 <? Materials_count materialName materials)%nat then
    Fatal (String.append "Duplicate material name: " materialName)
  else
    match readMaterial in1 materials with
    | Fatal message => Fatal message
    | Parsed (material, in2) =>
        Parsed (Materials_insert materialName material materials, in2)
    end.

(** What [readScene] writes to: the tracer, the [up] vector of the camera
    (which the renderer does not read) and the named materials. *)
Record SceneState : Type := mkSceneState {
  tracer : RayTracer D;
  cameraUp : Vector D;
  materials : Materials
}.

Definition set_camera (rt : RayTracer D) (cam : Camera D) : RayTracer D :=
  mkRayTracer (width rt) (height rt) (maxReflections rt) (superSamples rt)
    cam (imageScale rt) (depthComplexity rt) (dispersion rt) (objects rt)
    (lights rt).

Definition set_numbers (rt : RayTracer D) (maxRefl : Z) (scale disp : D)
    : RayTracer D :=
  mkRayTracer (width rt) (height rt) maxRefl (superSamples rt)
    (camera rt) scale (depthComplexity rt) disp (objects rt) (lights rt).

(** [addObject] and [addLight] of [RayTracer.h]: [push_back]. *)
Definition addObject (rt : RayTracer D) (o : Object D) : RayTracer D :=
  mkRayTracer (width rt) (height rt) (maxReflections rt) (superSamples rt)
    (camera rt) (imageScale rt) (depthComplexity rt) (dispersion rt)
    (objects rt ++ [o]) (lights rt).

Definition addLight (rt : RayTracer D) (l : Light D) : RayTracer D :=
  mkRayTracer (width rt) (height rt) (maxReflections rt) (superSamples rt)
    (camera rt) (imageScale rt) (depthComplexity rt) (dispersion rt)
    (objects rt) (lights rt ++ [l]).

Definition with_tracer (st : SceneState) (rt : RayTracer D) : SceneState :=
  mkSceneState rt (cameraUp st) (materials st).

(** [type[0] == '#'] *)
Definition startsWithHash (type : String.string) : bool :=
  match type with
  | String.String c _ => Ascii.eqb c (Ascii.ascii_of_nat 35)
  | String.EmptyString => false
  end.

(** One turn of the loop of [RayTracer::readScene]: the directive named
    by [type] is read and carried out. *)
Definition directive (type : String.string) (input : Stream) (st : SceneState)
    : Parse (SceneState * Stream) :=
  let rt := tracer st in
  if startsWithHash type then
    let (_, in1) := getline input in Parsed (st, in1)
  else if String.eqb type "material" then
    match addMaterial input (materials st) with
    | Fatal message => Fatal message
    | Parsed (ms, in1) => Parsed (mkSceneState rt (cameraUp st) ms, in1)
    end
  else if String.eqb type "sphere" then
    let '(cx, cy, cz, in1) := get_three input in
    let (radius, in2) := get_double in1 in
    match readMaterial in2 (materials st) with
    | Fatal message => Fatal message
    | Parsed (material, in3) =>
        Parsed (with_tracer st
                  (addObject rt (Sphere_new (mkVector cx cy cz) radius material)),
                in3)
    end
  else if String.eqb type "light" then
    let '(px, py, pz, in1) := get_three input in
    let (intens, in2) := get_double in1 in
    Parsed (with_tracer st (addLight rt (mkLight (mkVector px py pz) intens)),
            in2)
  else if String.eqb type "dispersion" then
    let (disp, in1) := get_double input in
    Parsed (with_tracer st
              (set_numbers rt (maxReflections rt) (imageScale rt) disp), in1)
  else if String.eqb type "maxReflections" then
    let (n, in1) := get_int input in
    Parsed (with_tracer st
              (set_numbers rt n (imageScale rt) (dispersion rt)), in1)
  else if String.eqb type "cameraUp" then
    let '(ux, uy, uz, in1) := get_three input in
    Parsed (mkSceneState rt (mkVector ux uy uz) (materials st), in1)
  else if String.eqb type "cameraPosition" then
    let '(px, py, pz, in1) := get_three input in
    Parsed (with_tracer st
              (set_camera rt
                 (mkCamera (mkVector px py pz) (cam_lookAt (camera rt))
                    (cam_u (camera rt)) (cam_v (camera rt)))), in1)
  else if String.eqb type "cameraLookAt" then
    let '(lx, ly, lz, in1) := get_three input in
    Parsed (with_tracer st
              (set_camera rt
                 (mkCamera (cam_position (camera rt)) (mkVector lx ly lz)
                    (cam_u (camera rt)) (cam_v (camera rt)))), in1)
  else if String.eqb type "imageScale" then
    let (scale, in1) := get_double input in
    Parsed (with_tracer st
              (set_numbers rt (maxReflections rt) scale (dispersion rt)), in1)
  else Fatal (String.append "Type not found: " type).

(** [RayTracer::readScene].  [turns] bounds the number of directives; a
    stream that is still good after that many gives [None]. *)
Fixpoint readScene_loop (turns : nat) (type : String.string) (input : Stream)
    (st : SceneState) : option (Parse (SceneState * Stream)) :=
  if good input then
    match turns with
    | O => None
    | S turns' =>
        match directive type input st with
        | Fatal message => Some (Fatal message)
        | Parsed (st', in1) =>
            let (type', in2) := get_string in1 in
            readScene_loop turns' type' in2 st'
        end
    end
  else Some (Parsed (st, input)).

Definition readScene (turns : nat) (input : Stream) (st : SceneState)
    : option (Parse (SceneState * Stream)) :=
  let (type, in1) := get_string input in
  readScene_loop turns type in1 st.
End Reader.

Arguments Materials D : clear implicits.
Arguments SceneState D : clear implicits.

Section ReaderNotions.
Context {D : Type}.

(** No key of the map holds an upper-case letter. *)
Definition Materials_lowercase (ms : list (String.string * Material D)) : Prop :=
  Forall (fun entry => hasUpper (fst entry) = false) ms.

End ReaderNotions.

(** A stream of tokens that are already separated, for the instances
    below: a word, a number or an integer at a time; an extraction that
    does not find its kind of token fails and leaves the stream
    exhausted. *)
Inductive Token : Type :=
| Word (w : String.string)
| Number (a : float)
| Int (n : Z).

#[export] Instance Tokens_IStream : IStream float (list Token) := {
  get_string := fun s =>
    match s with Word w :: rest => (w, rest) | _ => (String.EmptyString, []) end;
  get_double := fun s =>
    match s with Number a :: rest => (a, rest) | _ => (0%float, []) end;
  get_int := fun s =>
    match s with Int n :: rest => (n, rest) | _ => (0%Z, []) end;
  getline := fun s => (String.EmptyString, s);
  good := fun s => match s with [] => false | _ => true end
}.

(** Stand-ins for the two constructors, for the instances below. *)
#[export] Instance Tokens_SceneLibrary : SceneLibrary float := {
  Sphere_new := fun _ _ material =>
    mkObject
      (fun _ => mkIntersection false 0%float
                  (mkVector 0 0 0)%float (mkVector 0 0 0)%float
                  (mkRay (mkVector 0 0 0)%float (mkVector 0 0 0)%float 0 0%float)
                  material)
      (fun q (e : false = true) => False_ind _ (diff_false_true e));
  Checkerboard_new := fun color1 _ _ shininess reflectivity =>
    mkMaterial (fun _ => color1) shininess reflectivity (-1)%float
}.

(* ================================================================= *)
(** ** Concrete inputs for the instances of the further properties *)

Module Inputs.
Import Scenes.
Local Open Scope string_scope.

(** A platform and a scene over the reals: a white point at the origin
    that faces up, under two lights of intensity 1. *)
#[export] Instance real_platform : Platform R := {|
  NOT_SHINY := (-1)%R;
  NOT_REFLECTIVE := (-1)%R;
  NOT_REFRACTIVE := (-1)%R;
  AIR_REFRACTIVE_INDEX := 1%R;
  RAND_MAX := 2147483647;
  pow := Rpower;
  rand := fun _ => 0%Z
|}.

Definition realUp : Vector R := mkVector 0%R 0%R 1%R.
Definition realDown : Vector R := mkVector 0%R 0%R (-1)%R.
Definition realWhite : Color R := mkColor 1%R 1%R 1%R.

Definition realHit : Intersection R :=
  mkIntersection true 5%R (mkVector 0%R 0%R 0%R) realUp
    (mkRay (mkVector 0%R 0%R 5%R) realDown 3 1%R)
    (mkMaterial (fun _ => realWhite) (-1)%R (-1)%R (-1)%R).

Definition realTracer : RayTracer R :=
  mkRayTracer 1 1 3 1
    (mkCamera (mkVector 0%R 0%R 5%R) (mkVector 0%R 0%R 0%R)
       (mkVector 1%R 0%R 0%R) (mkVector 0%R 1%R 0%R))
    1%R 1 5%R []
    [mkLight (mkVector 0%R 0%R 10%R) 1%R; mkLight (mkVector 0%R 0%R 20%R) 1%R].

(** A scene description, already split into tokens: a named material, a
    sphere that refers to it, a light and a dispersion. *)
Definition sceneText : list Token :=
  [Word "material"; Word "glass"; Word "FlatColor";
   Number 1; Number 1; Number 1; Number (-1); Number 0.5; Number 1.5;
   Word "sphere"; Number 0; Number 0; Number 0; Number 1; Word "glass";
   Word "light"; Number 0; Number 0; Number 10; Number 1;
   Word "dispersion"; Number (-1)]%float.


Definition glassEntry : Materials float :=
  [("glass",
    FlatColor_new (mkColor 1 1 1)%float (-1)%float 0.5%float 1.5%float)].
End Inputs.

(* ================================================================= *)
(** ** The order of the scalars: binary64 and the reals *)

Lemma SFcompare_not_Lt_refl (a : spec_float) : SFcompare a a <> Some Lt.
Proof.
  destruct a as [s|s| |s m e]; simpl; try discriminate.
  - destruct s; discriminate.
  - rewrite Z.compare_refl.
    change (PosDef.Pos.compare_cont Eq) with Pos.compare.
    rewrite Pos.compare_refl. destruct s; discriminate.
Qed.

Lemma SFcompare_Lt_trans (a b c : spec_float) :
  SFcompare a b = Some Lt -> SFcompare b c = Some Lt ->
  SFcompare a c = Some Lt.
Proof.
  destruct a as [sa|sa| |sa ma ea], b as [sb|sb| |sb mb eb],
           c as [sc|sc| |sc mc ec]; simpl;
    try discriminate;
    try (destruct sa; discriminate || (destruct sb; discriminate
         || (destruct sc; discriminate || reflexivity)));
    try (destruct sb; discriminate || (destruct sc; discriminate
         || (destruct sa; discriminate || reflexivity))).
  all: destruct sa, sb, sc; try discriminate; try reflexivity.
  all: intros Hab Hbc; f_equal;
       injection Hab as Hab; injection Hbc as Hbc;
       destruct (Z.compare_spec ea eb) as [Eab|Lab|Gab];
       destruct (Z.compare_spec eb ec) as [Ebc|Lbc|Gbc];
       try discriminate; subst.
  all: try (rewrite Z.compare_refl).
  all: try (match goal with
            | L : (?p < ?q)%Z |- context [(?p ?= ?q)%Z] =>
                rewrite (proj2 (Z.compare_lt_iff p q) L); reflexivity
            | L : (?q < ?p)%Z |- context [(?p ?= ?q)%Z] =>
                rewrite (proj2 (Z.compare_gt_iff p q) L); reflexivity
            end).
  all: try (match goal with
            | L1 : (?p < ?q)%Z, L2 : (?q < ?s)%Z |- context [(?p ?= ?s)%Z] =>
                rewrite (proj2 (Z.compare_lt_iff p s) (Z.lt_trans _ _ _ L1 L2));
                reflexivity
            | L1 : (?p < ?q)%Z, L2 : (?q < ?s)%Z |- context [(?s ?= ?p)%Z] =>
                rewrite (proj2 (Z.compare_gt_iff s p) (Z.lt_trans _ _ _ L1 L2));
                reflexivity
            end).
  - (* both negative, equal exponents *)
    change (PosDef.Pos.compare_cont Eq) with Pos.compare in *.
    destruct (Pos.compare_spec ma mb), (Pos.compare_spec mb mc);
      try discriminate.
    rewrite (proj2 (Pos.compare_gt_iff ma mc)); [reflexivity|lia].
  - (* both positive, equal exponents *)
    change (PosDef.Pos.compare_cont Eq) with Pos.compare in *.
    destruct (Pos.compare_spec ma mb), (Pos.compare_spec mb mc);
      try discriminate.
    rewrite (proj2 (Pos.compare_lt_iff ma mc)); [reflexivity|lia].
Qed.

#[export] Instance float_OrderedDouble : OrderedDouble float.
Proof.
  constructor.
  { intros a. simpl. rewrite FloatAxioms.ltb_spec. unfold SFltb.
    destruct (SFcompare (Prim2SF a) (Prim2SF a)) as [[]|] eqn:E;
      try reflexivity.
    now apply SFcompare_not_Lt_refl in E. }
  intros a b c. simpl.
  rewrite !FloatAxioms.ltb_spec. unfold SFltb.
  destruct (SFcompare (Prim2SF a) (Prim2SF b)) as [[]|] eqn:Eab;
    try discriminate.
  destruct (SFcompare (Prim2SF b) (Prim2SF c)) as [[]|] eqn:Ebc;
    try discriminate.
  rewrite (SFcompare_Lt_trans _ _ _ Eab Ebc). reflexivity.
Qed.

#[export] Instance R_OrderedDouble : OrderedDouble R.
Proof.
  constructor.
  { intros a. simpl. unfold Rltb. destruct (Rlt_dec a a); [lra|reflexivity]. }
  intros a b c. simpl. unfold Rltb.
  destruct (Rlt_dec a b), (Rlt_dec b c), (Rlt_dec a c);
    try discriminate; try reflexivity.
  exfalso. lra.
Qed.

(* ================================================================= *)
(** ** Intersection search and shadow test *)

Section Search.
Context {D : Type} `{Double D} `{Platform D}.
Local Open Scope double_scope.

Lemma isInShadow_from_existsb (objs : list (Object D)) q lightDistance :
  isInShadow_from objs q lightDistance = existsb (blocks q lightDistance) objs.
Proof.
  induction objs as [|o rest IH]; simpl; [reflexivity|].
  unfold blocks at 1.
  destruct (didIntersect (intersect o q)
            && (distance (intersect o q) <? lightDistance));
    simpl; [reflexivity | exact IH].
Qed.

Lemma closer_cases q c o :
  (hitBelow q (distance c) o /\ closer q c o = intersect o q)
  \/ (~ hitBelow q (distance c) o /\ closer q c o = c).
Proof.
  unfold closer, hitBelow.
  destruct (didIntersect (intersect o q)); simpl.
  - destruct (distance (intersect o q) <? distance c); [left|right];
      (split; [|reflexivity]); intuition congruence.
  - right. split; [|reflexivity]. intuition congruence.
Qed.

(** The ray that the result of the search refers to. *)
Lemma closer_fold_ray (objs : list (Object D)) q c0 :
  (didIntersect c0 = true -> ray c0 = q) ->
  didIntersect (fold_left (closer q) objs c0) = true ->
  ray (fold_left (closer q) objs c0) = q.
Proof.
  revert c0. induction objs as [|o rest IH]; intros c0 Hc0; simpl; [exact Hc0|].
  apply IH.
  destruct (closer_cases q c0 o) as [[[Hh _] ->]|[_ ->]]; [|exact Hc0].
  intros _. now apply intersect_ray.
Qed.

Section Ordered.
Context `{!OrderedDouble D}.

(** The loop of [getClosestIntersection], started from a candidate
    [c0]: the value is [c0] itself or a reported hit strictly closer
    than [c0]. *)
Lemma closer_fold_origin (objs : list (Object D)) q c0 :
  fold_left (closer q) objs c0 = c0
  \/ exists o, In o objs /\ hitBelow q (distance c0) o
       /\ fold_left (closer q) objs c0 = intersect o q.
Proof.
  revert c0. induction objs as [|o rest IH]; intros c0; simpl; [now left|].
  destruct (closer_cases q c0 o) as [[Hacc ->]|[_ ->]].
  - right.
    destruct (IH (intersect o q)) as [E|(o' & Hin & [Hh Hlt] & E)].
    + exists o. auto.
    + exists o'. repeat split; auto.
      destruct Hacc as [_ Hlt0]. exact (d_ltb_trans _ _ _ Hlt Hlt0).
  - destruct (IH c0) as [E|(o' & Hin & Hb & E)]; [now left|].
    right. exists o'. auto.
Qed.

(** No reported hit is strictly closer than the value of the loop. *)
Lemma closer_fold_minimal (objs : list (Object D)) q c0 o :
  In o objs -> didIntersect (intersect o q) = true ->
  (distance (intersect o q)
     <? distance (fold_left (closer q) objs c0)) = false.
Proof.
  revert c0. induction objs as [|o1 rest IH]; intros c0 Hin Hhit;
    simpl in *; [contradiction|].
  destruct Hin as [->|Hin]; [|now apply IH].
  apply not_true_is_false. intros Hlt.
  destruct (closer_cases q c0 o) as [[Hacc E]|[Hrej E]]; rewrite E in Hlt.
  - destruct (closer_fold_origin rest q (intersect o q))
      as [E'|(o' & _ & [_ Hlt'] & E')]; rewrite E' in Hlt.
    + rewrite d_ltb_irrefl in Hlt. discriminate.
    + pose proof (d_ltb_trans _ _ _ Hlt Hlt') as Hrefl.
      rewrite d_ltb_irrefl in Hrefl. discriminate.
  - apply Hrej. split; [exact Hhit|].
    destruct (closer_fold_origin rest q c0)
      as [E'|(o' & _ & [_ Hlt'] & E')]; rewrite E' in Hlt.
    + exact Hlt.
    + exact (d_ltb_trans _ _ _ Hlt Hlt').
Qed.
End Ordered.
End Search.

Section SearchTheorems.
Context {D : Type} `{Double D} `{Platform D}.
Local Open Scope double_scope.

Lemma getClosestIntersection_ray (rt : RayTracer D) q :
  didIntersect (getClosestIntersection rt q) = true ->
  ray (getClosestIntersection rt q) = q.
Proof. apply closer_fold_ray. discriminate. Qed.

Lemma closer_fold_none (objs : list (Object D)) q c0 :
  (forall o, In o objs -> ~ hitBelow q (distance c0) o) ->
  fold_left (closer q) objs c0 = c0.
Proof.
  induction objs as [|o rest IH]; intros Hnone; simpl; [reflexivity|].
  destruct (closer_cases q c0 o) as [[Hacc _]|[_ ->]].
  - exfalso. apply (Hnone o); [now left | exact Hacc].
  - apply IH. intros o' Hin. apply Hnone. now right.
Qed.

Lemma getClosestIntersection_miss (rt : RayTracer D) q :
  (forall o, In o (objects rt) -> didIntersect (intersect o q) = false) ->
  getClosestIntersection rt q = noIntersection.
Proof.
  intros Hmiss. apply closer_fold_none.
  intros o Hin [Hhit _]. rewrite (Hmiss o Hin) in Hhit. discriminate.
Qed.

(** C6: [isInShadow] answers [true] exactly when some object of the scene
    reports a hit for the ray at a distance strictly less than
    [lightDistance]; the scan that stops at the first such object and the
    scan of all objects give the same answer. *)
Theorem isInShadow_agrees_with_full_scan
    (rt : RayTracer D) (q : Ray D) (lightDistance : D) :
  isInShadow rt q lightDistance = isInShadow_fullScan rt q lightDistance
  /\ (isInShadow rt q lightDistance = true <->
      exists o, In o (objects rt)
                /\ didIntersect (intersect o q) = true
                /\ (distance (intersect o q) <? lightDistance) = true).
Proof.
  unfold isInShadow, isInShadow_fullScan.
  rewrite isInShadow_from_existsb. split; [reflexivity|].
  rewrite existsb_exists. unfold blocks.
  split; intros (o & Hin & Hb); exists o; (split; [exact Hin|]).
  - now apply andb_true_iff in Hb.
  - now apply andb_true_iff.
Qed.

(** C5, as amended: [getClosestIntersection] looks at every object of the
    scene.  If some object reports a hit at a distance strictly below the
    sentinel [numeric_limits<double>::max()], the result is such a
    reported hit; in any case no reported hit is strictly closer than the
    result; and if no object reports a hit strictly below the sentinel (in
    particular, if no object reports a hit) the result has the hit flag
    false and the sentinel as its distance. *)
Theorem getClosestIntersection_nearest_below_sentinel
    `{!OrderedDouble D} (rt : RayTracer D) (q : Ray D) :
  ((exists o, In o (objects rt) /\ hitBelow q d_max o) ->
     exists o, In o (objects rt) /\ hitBelow q d_max o
               /\ getClosestIntersection rt q = intersect o q)
  /\ (forall o, In o (objects rt) -> didIntersect (intersect o q) = true ->
        (distance (intersect o q)
           <? distance (getClosestIntersection rt q)) = false)
  /\ ((forall o, In o (objects rt) -> ~ hitBelow q d_max o) ->
        getClosestIntersection rt q = noIntersection
        /\ didIntersect (getClosestIntersection rt q) = false
        /\ distance (getClosestIntersection rt q) = d_max)
  /\ ((forall o, In o (objects rt) -> didIntersect (intersect o q) = false) ->
        getClosestIntersection rt q = noIntersection).
Proof.
  unfold getClosestIntersection, getClosestIntersection_from.
  repeat split.
  - intros (o & Hin & Hhit & Hlt).
    destruct (closer_fold_origin (objects rt) q noIntersection)
      as [E|(o' & Hin' & Hb' & E')].
    + exfalso.
      pose proof (closer_fold_minimal (objects rt) q noIntersection
                    o Hin Hhit) as Hmin.
      rewrite E in Hmin. simpl in Hmin. congruence.
    + exists o'. auto.
  - intros o Hin Hhit. now apply closer_fold_minimal.
  - now apply closer_fold_none.
  - rewrite closer_fold_none; [reflexivity | assumption].
  - rewrite closer_fold_none; [reflexivity | assumption].
  - intros Hmiss. now apply getClosestIntersection_miss.
Qed.
End SearchTheorems.

(* ================================================================= *)
(** ** Recursive illumination *)

Section CastRay.
Context {D : Type} `{Double D} `{Platform D}.
Local Open Scope double_scope.

Variable rt : RayTracer D.

Lemma afterRays_afterRays (n m : Z) (s : Counters) :
  afterRays n (afterRays m s) = afterRays (m + n) s.
Proof.
  unfold afterRays. simpl. f_equal.
  rewrite Zplus_mod_idemp_l. f_equal. lia.
Qed.

Lemma incr_raysCast_afterRays (s : Counters) :
  incr_raysCast s = Some (tt, afterRays 1 s).
Proof. reflexivity. Qed.

(** [castRay] on a ray that the search finds no hit for. *)
Lemma castRay_body_miss (castRay' : Ray D -> M (Color D)) q s :
  didIntersect (getClosestIntersection rt q) = false ->
  castRay_body rt castRay' q s = Some (Color_default, afterRays 1 s).
Proof.
  intros Hmiss. unfold castRay_body, bind.
  rewrite incr_raysCast_afterRays, Hmiss. reflexivity.
Qed.

(** The reflective/refractive step refuses to recurse on a spent budget. *)
Lemma getReflectiveRefractiveLighting_spent
    (castRay' : Ray D -> M (Color D)) (i : Intersection D) :
  (reflectionsRemaining (ray i) <= 0)%Z ->
  getReflectiveRefractiveLighting castRay' i = ret Color_default.
Proof.
  intros Hk. unfold getReflectiveRefractiveLighting, noReflectiveRefractiveLighting.
  apply Z.leb_le in Hk. rewrite Hk, orb_true_r. reflexivity.
Qed.

(** The only call that the lighting of a hit makes: either none, and the
    counters are untouched, or one call of [castRay] on [reflectedRay i]
    with a budget that was positive before the step. *)
Lemma performLighting_calls (castRay' : Ray D -> M (Color D)) i s :
  (exists c, performLighting rt castRay' i s = Some (c, s))
  \/ ((0 < reflectionsRemaining (ray i))%Z
      /\ forall c s',
           castRay' (reflectedRay i) s = Some (c, s') ->
           exists c', performLighting rt castRay' i s = Some (c', s')).
Proof.
  unfold performLighting, getReflectiveRefractiveLighting,
    noReflectiveRefractiveLighting, reflectiveAndRefractiveColors, bind, ret.
  destruct ((getReflectivity (material i) =? NOT_REFLECTIVE)
            && (getRefractiveIndex (material i) =? NOT_REFRACTIVE)); simpl;
    [left; eauto|].
  destruct (Z.leb_spec (reflectionsRemaining (ray i)) 0) as [Hk|Hk];
    [left; eauto|].
  destruct ((refractivePercentage i <=? d_of_int 0)
            && (reflectivePercentage i <=? d_of_int 0)); [left; eauto|].
  destruct (d_of_int 0 <? reflectivePercentage i); [|left; eauto].
  right. split; [exact Hk|]. intros c s' ->. eauto.
Qed.

Lemma castRay_within (depth : nat) :
  forall q s,
    (Z.to_nat (reflectionsRemaining q) < depth)%nat ->
    exists c n,
      castRay rt depth q s = Some (c, afterRays n s)
      /\ (1 <= n <= Z.max 0 (reflectionsRemaining q) + 1)%Z.
Proof.
  induction depth as [|depth IH]; intros q s Hlt; [lia|].
  simpl. unfold castRay_body, bind.
  rewrite incr_raysCast_afterRays.
  destruct (didIntersect (getClosestIntersection rt q)) eqn:Hhit.
  2:{ exists Color_default, 1%Z. split; [reflexivity|lia]. }
  pose proof (getClosestIntersection_ray rt q Hhit) as Hray.
  destruct (performLighting_calls (castRay rt depth)
              (getClosestIntersection rt q) (afterRays 1 s))
    as [[c E]|[Hk Hcall]].
  - exists c, 1%Z. split; [exact E|lia].
  - rewrite Hray in Hk.
    destruct (IH (reflectedRay (getClosestIntersection rt q)) (afterRays 1 s))
      as (c & n & E & Hn).
    { unfold reflectedRay. simpl. rewrite Hray. lia. }
    destruct (Hcall _ _ E) as [c' E'].
    exists c', (1 + n)%Z. rewrite afterRays_afterRays in E'.
    split; [exact E'|].
    unfold reflectedRay in Hn. simpl in Hn. rewrite Hray in Hn. lia.
Qed.

(** A result does not depend on the depth allowed beyond what it used. *)
Lemma castRay_deeper (depth : nat) :
  forall q s res,
    castRay rt depth q s = Some res -> castRay rt (S depth) q s = Some res.
Proof.
  induction depth as [|depth IH]; intros q s res E; [discriminate|].
  change (castRay rt (S (S depth)) q s)
    with (castRay_body rt (castRay rt (S depth)) q s).
  change (castRay rt (S depth) q s)
    with (castRay_body rt (castRay rt depth) q s) in E.
  revert E. unfold castRay_body, bind.
  rewrite incr_raysCast_afterRays.
  destruct (didIntersect (getClosestIntersection rt q)); [|tauto].
  unfold performLighting, getReflectiveRefractiveLighting,
    reflectiveAndRefractiveColors, bind, ret.
  destruct (noReflectiveRefractiveLighting (getClosestIntersection rt q));
    [tauto|].
  destruct ((refractivePercentage (getClosestIntersection rt q) <=? d_of_int 0)
            && (reflectivePercentage (getClosestIntersection rt q) <=? d_of_int 0));
    [tauto|].
  destruct (d_of_int 0 <? reflectivePercentage (getClosestIntersection rt q));
    [|tauto].
  destruct (castRay rt depth (reflectedRay (getClosestIntersection rt q))
              (afterRays 1 s)) as [[c s']|] eqn:Erec; [|discriminate].
  rewrite (IH _ _ _ Erec). tauto.
Qed.

(** C7: [castRay] terminates within the bounce budget of its ray.  With
    [k] the budget (taken as [0] when negative), a nesting depth of
    [k + 1] calls is enough for a result, and [raysCast] then records [n]
    calls of [castRay] with [1 <= n <= k + 1], the first being the call
    at hand: at most [k] nested calls.  The ray spawned for the
    reflection at the hit of a ray carries the budget of that ray less
    one, and on a budget [<= 0] the reflective/refractive step returns
    without a call. *)
Theorem castRay_terminates_within_budget (q : Ray D) (s : Counters) :
  (exists c n,
      castRay rt (S (Z.to_nat (reflectionsRemaining q))) q s
        = Some (c, afterRays n s)
      /\ (1 <= n <= Z.max 0 (reflectionsRemaining q) + 1)%Z)
  /\ (forall i : Intersection D,
        reflectionsRemaining (reflectedRay i)
          = (reflectionsRemaining (ray i) - 1)%Z)
  /\ (didIntersect (getClosestIntersection rt q) = true ->
      reflectionsRemaining (reflectedRay (getClosestIntersection rt q))
        = (reflectionsRemaining q - 1)%Z)
  /\ (forall (castRay' : Ray D -> M (Color D)) (i : Intersection D),
        (reflectionsRemaining (ray i) <= 0)%Z ->
        getReflectiveRefractiveLighting castRay' i = ret Color_default).
Proof.
  split; [|split; [|split]].
  - apply castRay_within. lia.
  - reflexivity.
  - intros Hhit. unfold reflectedRay. simpl.
    now rewrite (getClosestIntersection_ray rt q Hhit).
  - apply getReflectiveRefractiveLighting_spent.
Qed.

(** C8: when no object of the scene reports an intersection for the ray,
    [castRay] returns the default color (and counts the one ray). *)
Theorem castRay_miss_is_background (depth : nat) (q : Ray D) (s : Counters) :
  (forall o, In o (objects rt) -> didIntersect (intersect o q) = false) ->
  castRay rt (S depth) q s = Some (Color_default, afterRays 1 s)
  /\ castRay_top rt q s = Some (Color_default, afterRays 1 s).
Proof.
  intros Hmiss.
  assert (Hno : didIntersect (getClosestIntersection rt q) = false)
    by (rewrite getClosestIntersection_miss by assumption; reflexivity).
  split; [|unfold castRay_top]; simpl; now apply castRay_body_miss.
Qed.

End CastRay.

(* ================================================================= *)
(** ** Direct lighting, reflection and sampling: what the code computes *)

Section Structure.
Context {D : Type} `{Double D} `{Platform D}.
Local Open Scope double_scope.

(** One turn of the loop over the lights, for a light that faces the
    surface and is not blocked: the whole diffuse sum so far is scaled by
    the intensity of this light. *)
Lemma lightTurn_lit (rt : RayTracer D) i color diffuseColor specularColor light :
  facesAndReaches rt i light = true ->
  lightTurn rt i color (diffuseColor, specularColor) light
  = (((diffuseColor + color * dot (normal i) (lightDirectionAt i light))
        * intensity light)%C,
     (specularColor + getSpecularLighting i light)%C).
Proof.
  unfold facesAndReaches, lightTurn, lightDirectionAt.
  intros Hlit. apply andb_true_iff in Hlit as [Hface Hreach].
  rewrite Hface. apply negb_true_iff in Hreach. rewrite Hreach. reflexivity.
Qed.

(** The factor applied to the traced reflection is the reflectivity of the
    material, also when the material has a refractive index. *)
Lemma reflectiveColor_scaled_by_reflectivity
    (castRay' : Ray D -> M (Color D)) (i : Intersection D) (s : Counters) :
  (reflectivePercentage i >? d_of_int 0) = true ->
  reflectiveAndRefractiveColors castRay' i s
  = match castRay' (reflectedRay i) s with
    | Some (c, s') =>
        Some (((c * getReflectivity (material i))%C, Color_default), s')
    | None => None
    end.
Proof.
  intros Hpos. unfold reflectiveAndRefractiveColors, bind, ret. rewrite Hpos.
  destruct (castRay' (reflectedRay i) s) as [[c s']|]; [|reflexivity].
  now destruct (d_of_int 0 <? refractivePercentage i).
Qed.

(** A negative dispersion resets the depth complexity to 1. *)
Lemma resetDepthComplexity_negative (rt : RayTracer D) :
  (dispersion rt <? d_of_int 0) = true ->
  depthComplexity (resetDepthComplexity rt) = 1%Z.
Proof. unfold resetDepthComplexity. now intros ->. Qed.

(** Any other dispersion leaves the tracer as it is. *)
Lemma resetDepthComplexity_otherwise (rt : RayTracer D) :
  (dispersion rt <? d_of_int 0) = false ->
  resetDepthComplexity rt = rt.
Proof. unfold resetDepthComplexity. now intros ->. Qed.

(** With depth complexity 1, one ray is cast at a point of the image
    plane: the ray from the camera position towards the point, as it
    is. *)
Lemma castRayAtPoint_pinhole (rt : RayTracer D) (point : Vector D) s :
  depthComplexity rt = 1%Z ->
  castRayAtPoint rt point s
  = bind (castRay_top rt
            (mkRay (cam_position (camera rt))
               (point - cam_position (camera rt))%V
               (maxReflections rt) AIR_REFRACTIVE_INDEX))
      (fun c =>
         ret (Color_default
              + c * float_div (float_of_int 1) (float_of_int 1))%C) s.
Proof.
  intros Hone. unfold castRayAtPoint, viewRayAt, for_int. rewrite Hone.
  simpl. unfold bind, ret.
  destruct (castRay_top rt _ s) as [[c s']|]; reflexivity.
Qed.
End Structure.


(* ================================================================= *)
(** ** Sampling and the render pass *)

Section Sampling.
Context {D : Type} `{Double D} `{Platform D}.
Local Open Scope double_scope.

Lemma returns_ret {A} (a : A) : returns (ret a).
Proof. intros s. now exists (a, s). Qed.

Lemma returns_bind {A B} (m : M A) (k : A -> M B) :
  returns m -> (forall a, returns (k a)) -> returns (bind m k).
Proof.
  intros Hm Hk s. unfold bind.
  destruct (Hm s) as [[a s'] ->]. apply Hk.
Qed.

Lemma returns_for_from {A} (todo : nat) :
  forall (i : Z) (body : Z -> A -> M A) (acc : A),
    (forall j a, returns (body j a)) -> returns (for_from todo i body acc).
Proof.
  induction todo as [|todo IH]; intros i body acc Hbody; simpl.
  - apply returns_ret.
  - apply returns_bind; [apply Hbody|]. intros a. now apply IH.
Qed.

Lemma returns_castRay_top (rt : RayTracer D) (q : Ray D) :
  returns (castRay_top rt q).
Proof.
  intros s. unfold castRay_top.
  destruct (castRay_within rt (depth := S (Z.to_nat (reflectionsRemaining q)))
              q s) as (c & n & E & _); [lia|].
  eauto.
Qed.

Lemma returns_viewRayAt (rt : RayTracer D) (point : Vector D) :
  returns (viewRayAt rt point).
Proof.
  unfold viewRayAt. destruct (depthComplexity rt >? 1)%Z.
  - intros s. unfold bind, next_rand, ret. eauto.
  - apply returns_ret.
Qed.

Lemma returns_castRayAtPoint (rt : RayTracer D) (point : Vector D) :
  returns (castRayAtPoint rt point).
Proof.
  unfold castRayAtPoint, for_int. apply returns_for_from. intros _ color.
  apply returns_bind; [apply returns_viewRayAt|]. intros viewRay.
  apply returns_bind; [apply returns_castRay_top|]. intros c.
  apply returns_ret.
Qed.

Lemma returns_castRayForPixel (rt : RayTracer D) (px py : Z) :
  returns (castRayForPixel rt px py).
Proof.
  unfold castRayForPixel, for_int.
  apply returns_for_from. intros sx color.
  apply returns_for_from. intros sy color'.
  apply returns_bind; [apply returns_castRayAtPoint|]. intros c.
  apply returns_ret.
Qed.

(** X2: the render pass returns, for every tracer: the bounce budget of each
    primary ray bounds the recursion below it. *)
Theorem traceRays_returns (rt : RayTracer D) (s : Counters) :
  exists res, traceRays rt s = Some res.
Proof.
  revert s. change (returns (traceRays rt)). unfold traceRays, for_int.
  apply returns_bind; [|intros image; apply returns_ret].
  apply returns_for_from. intros px image.
  apply returns_for_from. intros py image'.
  apply returns_bind; [apply returns_castRayForPixel|]. intros c.
  apply returns_ret.
Qed.

(** X1: with a negative dispersion, [traceRays] renders with depth complexity
    1, whatever the configured value, and then one ray is cast at each
    point of the image plane: the ray from the camera position towards
    the point, without disturbance. *)
Theorem negative_dispersion_is_pinhole
    (rt : RayTracer D) (point : Vector D) (s : Counters) :
  (dispersion rt <? d_of_int 0) = true ->
  depthComplexity (resetDepthComplexity rt) = 1%Z
  /\ castRayAtPoint (resetDepthComplexity rt) point s
     = bind (castRay_top (resetDepthComplexity rt)
               (mkRay (cam_position (camera rt))
                  (point - cam_position (camera rt))%V
                  (maxReflections rt) AIR_REFRACTIVE_INDEX))
         (fun c =>
            ret (Color_default
                 + c * float_div (float_of_int 1) (float_of_int 1))%C) s.
Proof.
  intros Hneg.
  pose proof (resetDepthComplexity_negative rt Hneg) as Hone.
  split; [exact Hone|].
  rewrite (castRayAtPoint_pinhole _ point s Hone).
  unfold resetDepthComplexity. rewrite Hneg. reflexivity.
Qed.
End Sampling.

(* ================================================================= *)
(** ** Fresnel reflectance *)

Section Fresnel.
Context {D : Type} `{Double D}.
Local Open Scope double_scope.

(** C9: whenever [sinT2 = (n1/n2)^2 * (1 - cosI^2)], with
    [cosI = - normal . incident], is greater than 1, [getReflectance]
    returns exactly 1. *)
Theorem getReflectance_total_internal_reflection
    (nrm incident : Vector D) (n1 n2 : D) :
  ((n1 / n2) * (n1 / n2)
     * (d_of_int 1 - (- dot nrm incident) * (- dot nrm incident))
     >? d_of_int 1) = true ->
  getReflectance nrm incident n1 n2 = d_of_int 1.
Proof.
  intros Htir. unfold getReflectance. rewrite Htir. reflexivity.
Qed.
End Fresnel.

Section FresnelReal.
Local Open Scope R_scope.


End FresnelReal.

(* ================================================================= *)
(** ** Evaluations in binary64 *)

Section Binary64.
Import Scenes.
Local Open Scope float_scope.

(** Adding the zero of [Color()] to a binary64 value gives the value
    back, except that a negative zero becomes the positive zero. *)
Lemma float_add_zero (a : float) :
  a + 0 = a \/ (a + 0 = 0 /\ (a =? 0) = true).
Proof.
  assert (Hinj : forall u v : float, Prim2SF u = Prim2SF v -> u = v).
  { intros u v E. rewrite <- (SF2Prim_Prim2SF u), <- (SF2Prim_Prim2SF v).
    now rewrite E. }
  pose proof (FloatAxioms.add_spec a 0) as Hadd.
  pose proof (FloatAxioms.eqb_spec a 0) as Heqb.
  change (Prim2SF 0) with (S754_zero false) in *.
  unfold SF64add, SFadd in Hadd.
  destruct (Prim2SF a) as [sa|sa| |sa ma ea] eqn:Ea.
  - right. split.
    + apply Hinj. rewrite Hadd. now destruct sa.
    + rewrite Heqb. reflexivity.
  - left. apply Hinj. now rewrite Hadd, Ea.
  - left. apply Hinj. now rewrite Hadd, Ea.
  - left. apply Hinj. now rewrite Hadd, Ea.
Qed.

(** In binary64, a color plus [Color()] is the same color, channel by
    channel, up to the sign of a zero. *)
Lemma Color_add_default_binary64 (c : Color float) :
  sameNumber (r (c + Color_default)%C) (r c)
  /\ sameNumber (g (c + Color_default)%C) (g c)
  /\ sameNumber (b (c + Color_default)%C) (b c).
Proof.
  unfold sameNumber. destruct c as [cr cg cb]. simpl.
  change (float_of_Z 0) with 0.
  repeat split.
  - destruct (float_add_zero cr) as [->|[-> E]]; auto.
  - destruct (float_add_zero cg) as [->|[-> E]]; auto.
  - destruct (float_add_zero cb) as [->|[-> E]]; auto.
Qed.

(** C1 (the code departs from the claim): two unblocked lights of
    intensities 1 and 2 stand straight above a white surface.  The loop
    of [getDiffuseAndSpecularLighting] leaves [((0 + 1) * 1 + 1) * 2 = 4]
    in each channel of the diffuse term: the contribution of the first
    light has been scaled by the intensity of the second.  The sum that
    the claim states is [1 * 1 + 1 * 2 = 3]. *)
Theorem diffuse_rescales_earlier_lights :
  fst (diffuseAndSpecularColors twoLights (hitOn matte) white) = mkColor 4 4 4
  /\ getDiffuseAndSpecularLighting twoLights (hitOn matte) white = mkColor 4 4 4
  /\ diffuse_asSpecified twoLights (hitOn matte) white = mkColor 3 3 3.
Proof. repeat split; vm_compute; reflexivity. Qed.

(** C2 (the code departs from the claim): a ray hits, head on, a material
    of reflectivity 1/2 and refractive index 3/2, in a scene where the
    reflected ray is traced to the color [white * 0.2].  The reflected
    fraction is the Fresnel reflectance, about 0.04, yet the traced
    color is returned scaled by the reflectivity 1/2. *)
Theorem reflection_scaled_by_reflectivity_of_refractive_material :
  castRay walled 3 (reflectedRay (hitOn glass)) start
    = Some ((white * ambientCoefficient)%C, afterRays 1 start)
  /\ getReflectiveRefractiveLighting (castRay walled 3) (hitOn glass) start
     = Some ((white * ambientCoefficient * (1 / 2) + Color_default)%C,
             afterRays 1 start)
  /\ reflectivePercentage (hitOn glass)
     = getReflectance (mkVector 0 0 1) (mkVector 0 0 (-1)) 1 (3 / 2)
  /\ (reflectivePercentage (hitOn glass) <? 1 / 16) = true
  /\ getReflectiveRefractiveLighting (castRay walled 3) (hitOn glass) start
     <> Some ((white * ambientCoefficient * reflectivePercentage (hitOn glass)
               + Color_default)%C,
              afterRays 1 start).
Proof. repeat split; try (vm_compute; reflexivity). vm_compute. discriminate. Qed.

(** C4 (the code departs from the claim): with dispersion [0] and depth
    complexity 3, [traceRays] leaves the depth complexity at 3 and casts
    three rays for the one sub-sample of a 1 x 1 image; with dispersion
    [-1] it resets the depth complexity to 1 and casts one ray. *)
Theorem zero_dispersion_keeps_depth_complexity :
  (dispersion zeroDispersion <=? 0) = true
  /\ depthComplexity (resetDepthComplexity zeroDispersion) = 3%Z
  /\ option_map (fun res => (depthComplexity (snd (fst res)), raysCast (snd res)))
       (traceRays zeroDispersion start) = Some (3%Z, 3%Z)
  /\ option_map (fun res => (depthComplexity (snd (fst res)), raysCast (snd res)))
       (traceRays negativeDispersion start) = Some (1%Z, 1%Z).
Proof. repeat split; vm_compute; reflexivity. Qed.

(** X1, an instance: dispersion [-1], depth complexity 3 as
    configured. *)
Lemma negative_dispersion_witness :
  depthComplexity (resetDepthComplexity negativeDispersion) = 1%Z
  /\ castRayAtPoint (resetDepthComplexity negativeDispersion)
       (mkVector 0 0 0) start
     = Some (Color_default, afterRays 1 start).
Proof.
  assert (Hneg : (dispersion negativeDispersion <? d_of_int 0)%D = true)
    by reflexivity.
  destruct (negative_dispersion_is_pinhole negativeDispersion
              (mkVector 0 0 0) start Hneg) as [Hone Hcast].
  split; [exact Hone|]. rewrite Hcast. reflexivity.
Defined.

(** C5, the claim as stated fails: the only object of the scene reports a
    hit, at the distance [numeric_limits<double>::max()], and the search
    returns no hit. *)
Lemma getClosestIntersection_drops_hit_at_sentinel :
  objects farAway = [wallAt DBL_MAX]
  /\ didIntersect (intersect (wallAt DBL_MAX) downRay) = true
  /\ distance (intersect (wallAt DBL_MAX) downRay) = DBL_MAX
  /\ didIntersect (getClosestIntersection farAway downRay) = false.
Proof. repeat split. Qed.

(** C5, an instance: of the hits at distances 7 and 3, the search returns
    the one at distance 3. *)
Lemma getClosestIntersection_nearest_witness :
  (exists o, In o (objects threeObjects) /\ hitBelow downRay d_max o
             /\ getClosestIntersection threeObjects downRay = intersect o downRay)
  /\ distance (getClosestIntersection threeObjects downRay) = 3.
Proof.
  split; [|reflexivity].
  apply (getClosestIntersection_nearest_below_sentinel threeObjects downRay).
  exists (wallAt 7). split; [now left|]. split; reflexivity.
Defined.

(** C8, an instance: a scene whose one object no ray hits. *)
Lemma castRay_miss_witness :
  castRay (tracer 1 5 [nothing] []) 1 downRay start
    = Some (Color_default, afterRays 1 start)
  /\ castRay_top (tracer 1 5 [nothing] []) downRay start
     = Some (Color_default, afterRays 1 start).
Proof.
  apply (castRay_miss_is_background (tracer 1 5 [nothing] []) 0 downRay start).
  intros o [<-|[]]. reflexivity.
Defined.

(** C9, an instance: leaving a medium of index 2 for one of index 1 at
    grazing incidence, [sinT2 = 4]. *)
Lemma getReflectance_total_internal_reflection_witness :
  ((2 / 1) * (2 / 1)
     * (1 - (- dot (mkVector 0 0 1) (mkVector 1 0 0))
            * (- dot (mkVector 0 0 1) (mkVector 1 0 0))) >? 1)%D = true
  /\ getReflectance (mkVector 0 0 1) (mkVector 1 0 0) 2 1 = 1.
Proof.
  split; [reflexivity|].
  rewrite (getReflectance_total_internal_reflection
             (mkVector 0 0 1) (mkVector 1 0 0) 2 1); reflexivity.
Defined.

End Binary64.

Section RealInstance.
Local Open Scope R_scope.

(** Over the reals, a color plus [Color()] is the color. *)
Lemma Color_add_default_real (c : Color R) : (c + Color_default)%C = c.
Proof.
  destruct c as [cr cg cb]. unfold Color_add, Color_default. simpl.
  f_equal; ring.
Qed.

End RealInstance.

(* ================================================================= *)
(** ** The order of binary64 on the values that are numbers *)

Lemma SFcompare_Lt_key (a c : spec_float) :
  SFcompare a c = Some Lt <->
  exists ka kc, SFkey a = Some ka /\ SFkey c = Some kc /\ lt3 ka kc.
Proof.
  split.
  - destruct a as [sa|sa| |sa ma ea], c as [sc|sc| |sc mc ec]; simpl;
      try discriminate; intros E;
      eexists; eexists; (split; [reflexivity|]); (split; [reflexivity|]);
      destruct sa; try destruct sc; simpl; try discriminate E; try lia;
      injection E as E;
      change (PosDef.Pos.compare_cont Eq) with Pos.compare in E;
      destruct (Z.compare_spec ea ec); try discriminate E; try lia;
      destruct (Pos.compare_spec ma mc); try discriminate E; lia.
  - intros (ka & kc & Ea & Ec & Hlt).
    destruct a as [sa|sa| |sa ma ea], c as [sc|sc| |sc mc ec]; simpl in *;
      try discriminate;
      injection Ea as <-; injection Ec as <-;
      destruct sa; try destruct sc; simpl in Hlt; try lia; try reflexivity;
      f_equal;
      change (PosDef.Pos.compare_cont Eq) with Pos.compare;
      destruct (Z.compare_spec ea ec); try lia; try reflexivity;
      destruct (Pos.compare_spec ma mc); try lia; reflexivity.
Qed.

#[export] Instance float_WeakOrderedDouble : WeakOrderedDouble float.
Proof.
  constructor. intros a c m u. simpl.
  rewrite !FloatAxioms.ltb_spec. unfold SFltb.
  destruct (SFcompare (Prim2SF a) (Prim2SF c)) as [[]|] eqn:Eac;
    try discriminate.
  destruct (SFcompare (Prim2SF m) (Prim2SF u)) as [[]|] eqn:Emu;
    try discriminate.
  intros _ _.
  apply SFcompare_Lt_key in Eac as (ka & kc & Ea & Ec & Hac).
  apply SFcompare_Lt_key in Emu as (km & ku & Em & _ & _).
  assert (Hor : lt3 ka km \/ lt3 km kc).
  { destruct ka as [[? ?] ?], kc as [[? ?] ?], km as [[? ?] ?].
    simpl in *. lia. }
  destruct Hor as [Hl|Hr]; [left|right].
  - rewrite (proj2 (SFcompare_Lt_key _ _)); [reflexivity|]. eauto.
  - rewrite (proj2 (SFcompare_Lt_key _ _)); [reflexivity|]. eauto.
Qed.

#[export] Instance R_WeakOrderedDouble : WeakOrderedDouble R.
Proof.
  constructor. intros a c m u. simpl. unfold Rltb.
  destruct (Rlt_dec a c), (Rlt_dec a m), (Rlt_dec m c);
    try discriminate; auto.
  intros _ _. exfalso. lra.
Qed.

(* ================================================================= *)
(** ** More on the shadow test and the search *)

Section ShadowAndSearch.
Context {D : Type} `{Double D} `{Platform D}.
Local Open Scope double_scope.

Lemma isInShadow_true_iff (rt : RayTracer D) q lightDistance :
  isInShadow rt q lightDistance = true <->
  exists o, In o (objects rt) /\ hitBelow q lightDistance o.
Proof.
  unfold isInShadow. rewrite isInShadow_from_existsb, existsb_exists.
  unfold blocks, hitBelow.
  split; intros (o & Hin & Hb); exists o; (split; [exact Hin|]);
    now apply andb_true_iff.
Qed.

(** X3: the shadow test is monotone.  A ray that is in shadow stays in
    shadow when objects are added to the scene and when the light is
    moved farther away; hence adding objects never turns a light that
    does not reach a surface point into one that does. *)
Theorem isInShadow_monotone `{!OrderedDouble D}
    (rt rt' : RayTracer D) (q : Ray D) (lightDistance lightDistance' : D) :
  (forall o, In o (objects rt) -> In o (objects rt')) ->
  lightDistance = lightDistance' \/ (lightDistance <? lightDistance') = true ->
  isInShadow rt q lightDistance = true ->
  isInShadow rt' q lightDistance' = true.
Proof.
  intros Hincl Hfar Hshadow.
  apply isInShadow_true_iff in Hshadow as (o & Hin & Hhit & Hlt).
  apply isInShadow_true_iff. exists o. split; [now apply Hincl|].
  split; [exact Hhit|].
  destruct Hfar as [<-|Hfar]; [exact Hlt|].
  exact (d_ltb_trans _ _ _ Hlt Hfar).
Qed.

(** The loop of [getClosestIntersection], started from [c0], with the
    place of the winner in the list: every earlier reported hit that is
    a number is strictly farther, no later reported hit is strictly
    closer. *)
Lemma closer_fold_split `{!OrderedDouble D} `{!WeakOrderedDouble D}
    (objs : list (Object D)) q c0 :
  (fold_left (closer q) objs c0 = c0
   /\ forall o, In o objs -> ~ hitBelow q (distance c0) o)
  \/ exists before o after,
       objs = before ++ o :: after
       /\ fold_left (closer q) objs c0 = intersect o q
       /\ hitBelow q (distance c0) o
       /\ (forall o', In o' before -> hitBelow q d_max o' ->
             (distance (intersect o q) <? distance (intersect o' q)) = true)
       /\ (forall o', In o' after -> didIntersect (intersect o' q) = true ->
             (distance (intersect o' q) <? distance (intersect o q)) = false).
Proof.
  revert c0. induction objs as [|o1 rest IH]; intros c0; simpl.
  { left. split; [reflexivity|]. intros o []. }
  destruct (closer_cases q c0 o1) as [[Hacc ->]|[Hrej ->]].
  - right.
    destruct (IH (intersect o1 q))
      as [[E Hnone]|(before & o & after & -> & E & [Hh Hlt] & Hb & Ha)].
    + exists [], o1, rest.
      split; [reflexivity|]. split; [exact E|]. split; [exact Hacc|]. split.
      * intros o' [].
      * intros o' Hin Hhit. apply not_true_is_false. intros Hc.
        apply (Hnone o' Hin). now split.
    + exists (o1 :: before), o, after.
      split; [reflexivity|]. split; [exact E|]. split; [|split].
      * split; [exact Hh|]. exact (d_ltb_trans _ _ _ Hlt (proj2 Hacc)).
      * intros o' [<-|Hin] Hb'; [exact Hlt | now apply Hb].
      * exact Ha.
  - destruct (IH c0)
      as [[E Hnone]|(before & o & after & -> & E & [Hh Hlt] & Hb & Ha)].
    + left. split; [exact E|]. intros o [<-|Hin]; [exact Hrej | now apply Hnone].
    + right. exists (o1 :: before), o, after.
      split; [reflexivity|]. split; [exact E|]. split; [now split|]. split.
      * intros o' [<-|Hin] Hb'; [|now apply Hb].
        destruct (d_ltb_between _ _ _ _ Hlt (proj2 Hb')) as [Hgo|Hbad];
          [exact Hgo|].
        exfalso. apply Hrej. split; [exact (proj1 Hb') | exact Hbad].
      * exact Ha.
Qed.

(** X4: ties go to the object that was added first.  When some object
    reports a hit strictly below the sentinel, the scene splits around
    the object whose hit [getClosestIntersection] returns: every object
    before it that reports a hit below the sentinel reports it strictly
    farther away, and no object after it reports a hit strictly
    closer. *)
Theorem getClosestIntersection_first_nearest
    `{!OrderedDouble D} `{!WeakOrderedDouble D} (rt : RayTracer D) (q : Ray D) :
  (exists o, In o (objects rt) /\ hitBelow q d_max o) ->
  exists before o after,
    objects rt = before ++ o :: after
    /\ getClosestIntersection rt q = intersect o q
    /\ hitBelow q d_max o
    /\ (forall o', In o' before -> hitBelow q d_max o' ->
          (distance (intersect o q) <? distance (intersect o' q)) = true)
    /\ (forall o', In o' after -> didIntersect (intersect o' q) = true ->
          (distance (intersect o' q) <? distance (intersect o q)) = false).
Proof.
  intros (o & Hin & Hb).
  unfold getClosestIntersection, getClosestIntersection_from.
  destruct (closer_fold_split (objects rt) q noIntersection)
    as [[_ Hnone]|Hsplit]; [|exact Hsplit].
  exfalso. exact (Hnone o Hin Hb).
Qed.

(** X5: the shadow test is the nearest-hit test.  For a light distance
    that is not beyond the sentinel, [isInShadow] answers what the
    search for the closest intersection would: whether the closest
    intersection is a hit strictly closer than the light. *)
Theorem isInShadow_is_nearest_hit_test
    `{!OrderedDouble D} `{!WeakOrderedDouble D}
    (rt : RayTracer D) (q : Ray D) (lightDistance : D) :
  lightDistance = d_max \/ (lightDistance <? d_max) = true ->
  isInShadow rt q lightDistance
  = didIntersect (getClosestIntersection rt q)
    && (distance (getClosestIntersection rt q) <? lightDistance).
Proof.
  intros Hbound. apply eq_true_iff_eq.
  rewrite isInShadow_true_iff, andb_true_iff.
  unfold getClosestIntersection, getClosestIntersection_from.
  split.
  - intros (o & Hin & Hhit & Hlt).
    assert (Hsent : (distance (intersect o q) <? d_max) = true).
    { destruct Hbound as [<-|Hb]; [exact Hlt|].
      exact (d_ltb_trans _ _ _ Hlt Hb). }
    pose proof (closer_fold_minimal (objects rt) q noIntersection o Hin Hhit)
      as Hmin.
    destruct (closer_fold_origin (objects rt) q noIntersection)
      as [E|(o' & Hin' & [Hh' Hlt'] & E)]; rewrite E in *.
    + simpl in Hmin. congruence.
    + split; [exact Hh'|].
      destruct (d_ltb_between _ _ _ _ Hlt Hlt') as [Hbad|Hgo];
        [congruence | exact Hgo].
  - intros [Hhit Hlt].
    destruct (closer_fold_origin (objects rt) q noIntersection)
      as [E|(o' & Hin' & [Hh' Hlt'] & E)]; rewrite E in *.
    + discriminate.
    + exists o'. split; [exact Hin'|]. now split.
Qed.
End ShadowAndSearch.

(* ================================================================= *)
(** ** More on direct lighting and on the recursion *)

Section DirectLighting.
Context {D : Type} `{Double D} `{Platform D}.
Local Open Scope double_scope.

Variable rt : RayTracer D.

Lemma lightTurn_unlit i color acc light :
  facesAndReaches rt i light = false ->
  lightTurn rt i color acc light = acc.
Proof.
  unfold facesAndReaches, lightTurn, lightDirectionAt.
  destruct acc as [diffuseColor specularColor].
  destruct (d_of_int 0 <=? dot (normal i) (normalize (position light - intersection i)%V));
    [|reflexivity].
  simpl. intros Hblocked. apply negb_false_iff in Hblocked.
  now rewrite Hblocked.
Qed.

Lemma getSpecularLighting_gray (i : Intersection D) (light : Light D) :
  gray (getSpecularLighting i light).
Proof.
  unfold getSpecularLighting, gray.
  destruct (getShininess (material i) =? NOT_SHINY); [now split|].
  match goal with |- context [if ?c then _ else _] => destruct c end;
    now split.
Qed.

Lemma lightTurn_gray i color acc light :
  gray (snd acc) -> gray (snd (lightTurn rt i color acc light)).
Proof.
  intros Hacc.
  destruct (facesAndReaches rt i light) eqn:Hlit.
  - destruct acc as [diffuseColor specularColor].
    rewrite lightTurn_lit by exact Hlit. simpl in *.
    destruct Hacc as [Hrg Hgb].
    destruct (getSpecularLighting_gray i light) as [Hrg' Hgb'].
    unfold gray. simpl. now rewrite Hrg, Hgb, Hrg', Hgb'.
  - now rewrite lightTurn_unlit.
Qed.

(** X6: the specular term is colorless.  Whatever the scene, the
    surface color and the lights, the specular sum that
    [getDiffuseAndSpecularLighting] accumulates has three identical
    channels. *)
Theorem specular_term_is_gray (i : Intersection D) (color : Color D) :
  gray (snd (diffuseAndSpecularColors rt i color)).
Proof.
  unfold diffuseAndSpecularColors.
  assert (Hstart : gray (snd (mkColor (d_of_int 0) (d_of_int 0) (d_of_int 0),
                              mkColor (d_of_int 0) (d_of_int 0) (d_of_int 0))))
    by (split; reflexivity).
  revert Hstart. generalize (mkColor (d_of_int 0) (d_of_int 0) (d_of_int 0),
                             mkColor (d_of_int 0) (d_of_int 0) (d_of_int 0)).
  induction (lights rt) as [|light rest IH]; intros acc Hacc; simpl;
    [exact Hacc|].
  apply IH. now apply lightTurn_gray.
Qed.

Lemma lightTurn_fold_filter i color (ls : list (Light D)) acc :
  fold_left (lightTurn rt i color) ls acc
  = fold_left (lightTurn rt i color) (filter (facesAndReaches rt i) ls) acc.
Proof.
  revert acc. induction ls as [|light rest IH]; intros acc; simpl;
    [reflexivity|].
  destruct (facesAndReaches rt i light) eqn:Hlit; simpl.
  - apply IH.
  - rewrite lightTurn_unlit by exact Hlit. apply IH.
Qed.

(** X7: a light that faces away from the surface, or whose shadow ray is
    blocked, is skipped entirely.  The diffuse and specular sums are
    those of the scene with only the lights that face the surface and
    reach it, in the same order; with no such light both sums are the
    initial [Color(0, 0, 0)]. *)
Theorem unlit_lights_contribute_nothing (i : Intersection D) (color : Color D) :
  diffuseAndSpecularColors rt i color
  = fold_left (lightTurn rt i color)
      (filter (facesAndReaches rt i) (lights rt))
      (mkColor (d_of_int 0) (d_of_int 0) (d_of_int 0),
       mkColor (d_of_int 0) (d_of_int 0) (d_of_int 0))
  /\ ((forall light, In light (lights rt) ->
         facesAndReaches rt i light = false) ->
      diffuseAndSpecularColors rt i color
      = (mkColor (d_of_int 0) (d_of_int 0) (d_of_int 0),
         mkColor (d_of_int 0) (d_of_int 0) (d_of_int 0))).
Proof.
  unfold diffuseAndSpecularColors. split.
  - apply lightTurn_fold_filter.
  - intros Hnone. rewrite lightTurn_fold_filter.
    replace (filter (facesAndReaches rt i) (lights rt)) with (@nil (Light D));
      [reflexivity|].
    symmetry. induction (lights rt) as [|light rest IH]; simpl; [reflexivity|].
    rewrite (Hnone light) by now left.
    apply IH. intros l Hin. apply Hnone. now right.
Qed.

(** X8: when the recursion stops at a hit.  If the closest intersection
    is a hit on a material that is neither reflective nor refractive, or
    on a ray with no bounce left, or on a material whose reflected
    fraction is not positive, [castRay] returns after this one ray, at
    any depth and whatever budget remains. *)
Theorem castRay_single_ray (depth : nat) (q : Ray D) (s : Counters) :
  didIntersect (getClosestIntersection rt q) = true ->
  noReflectiveRefractiveLighting (getClosestIntersection rt q) = true
  \/ (reflectivePercentage (getClosestIntersection rt q) >? d_of_int 0) = false ->
  exists c, castRay rt (S depth) q s = Some (c, afterRays 1 s).
Proof.
  intros Hhit Hstop. simpl. unfold castRay_body, bind.
  rewrite incr_raysCast_afterRays, Hhit.
  unfold performLighting, getReflectiveRefractiveLighting,
    reflectiveAndRefractiveColors, bind, ret.
  destruct (noReflectiveRefractiveLighting (getClosestIntersection rt q));
    [eauto|].
  destruct Hstop as [Hstop|Hstop]; [discriminate|].
  destruct ((refractivePercentage (getClosestIntersection rt q) <=? d_of_int 0)
            && (reflectivePercentage (getClosestIntersection rt q) <=? d_of_int 0));
    [eauto|].
  rewrite Hstop. eauto.
Qed.
End DirectLighting.

Section DirectLightingReal.
Local Open Scope R_scope.

Lemma max0_real_nonneg (a : R) : Rleb 0 a = true -> max0 (D := R) a = a.
Proof.
  unfold max0, Rleb. simpl. unfold Rltb.
  destruct (Rle_dec 0 a); [|discriminate].
  destruct (Rlt_dec a 0); [lra|reflexivity].
Qed.

Lemma diffuse_fold_unit_intensities_real
    `{Platform R} (rt : RayTracer R) (i : Intersection R) (color : Color R)
    (ls : list (Light R)) (dc sc : Color R) :
  (forall light, In light ls -> intensity light = 1) ->
  fst (fold_left (lightTurn rt i color) ls (dc, sc))
  = fold_left
      (fun sum light =>
         if facesAndReaches rt i light
         then (sum + diffuseOfLight i color light)%C
         else sum)
      ls dc.
Proof.
  revert dc sc. induction ls as [|light rest IH]; intros dc sc Hone;
    cbn [fold_left]; [reflexivity|].
  destruct (facesAndReaches rt i light) eqn:Hlit.
  - rewrite lightTurn_lit by exact Hlit.
    assert (Hstep :
      ((dc + color * dot (normal i) (lightDirectionAt i light))
         * intensity light)%C
      = (dc + diffuseOfLight i color light)%C).
    { unfold diffuseOfLight. rewrite (Hone light) by now left.
      apply andb_true_iff in Hlit as [Hface _].
      rewrite max0_real_nonneg by exact Hface.
      destruct dc, color. unfold Color_add, Color_scale. simpl.
      f_equal; ring. }
    rewrite Hstep. apply IH. intros l Hin. apply Hone. now right.
  - rewrite lightTurn_unlit by exact Hlit.
    apply IH. intros l Hin. apply Hone. now right.
Qed.

(** X9: over the reals, when every light has intensity 1 the diffuse sum
    of the code is the sum that the specification states: the rescaling
    of the earlier contributions by the later intensities is then
    without effect. *)
Theorem diffuse_unit_intensities_real
    `{Platform R} (rt : RayTracer R) (i : Intersection R) (color : Color R) :
  (forall light, In light (lights rt) -> intensity light = 1) ->
  fst (diffuseAndSpecularColors rt i color) = diffuse_asSpecified rt i color.
Proof.
  intros Hone. unfold diffuseAndSpecularColors, diffuse_asSpecified.
  now apply diffuse_fold_unit_intensities_real.
Qed.
End DirectLightingReal.

(* ================================================================= *)
(** ** Reflection, refraction and reflectance *)

Section RefractionGuard.
Context {D : Type} `{Double D}.
Local Open Scope double_scope.

(** X10: [refractVector] aborts exactly on total internal reflection,
    [sinT2 > 1], and there [getReflectance] returns 1: a ray that is not
    wholly reflected always has a refracted direction. *)
Theorem refractVector_aborts_on_total_internal_reflection
    (nrm incident : Vector D) (n1 n2 : D) :
  (refractVector nrm incident n1 n2 = None <->
   ((n1 / n2) * (n1 / n2)
      * (d_of_int 1 - (- dot nrm incident) * (- dot nrm incident))
      >? d_of_int 1) = true)
  /\ (refractVector nrm incident n1 n2 = None ->
      getReflectance nrm incident n1 n2 = d_of_int 1).
Proof.
  unfold refractVector, getReflectance.
  destruct ((n1 / n2) * (n1 / n2)
              * (d_of_int 1 - (- dot nrm incident) * (- dot nrm incident))
              >? d_of_int 1).
  - split; [split; reflexivity | reflexivity].
  - split; [split; discriminate | discriminate].
Qed.
End RefractionGuard.

Section VectorsReal.
Local Open Scope R_scope.

Lemma dot_reflectVector_real (v n : Vector R) :
  dot n n = 1 -> dot (reflectVector v n) n = dot v n.
Proof.
  destruct v as [vx vy vz], n as [nx ny nz].
  unfold reflectVector, dot, Vector_sub, Vector_scale. simpl.
  intros Hn.
  replace ((nx * 2 * (vx * nx + vy * ny + vz * nz) - vx) * nx
           + (ny * 2 * (vx * nx + vy * ny + vz * nz) - vy) * ny
           + (nz * 2 * (vx * nx + vy * ny + vz * nz) - vz) * nz)
    with (2 * (vx * nx + vy * ny + vz * nz) * (nx * nx + ny * ny + nz * nz)
          - (vx * nx + vy * ny + vz * nz)) by ring.
  rewrite Hn. ring.
Qed.

(** X11: over the reals, [reflectVector] about a unit normal is a mirror:
    applying it twice gives the vector back, it keeps the length of the
    vector, and it keeps the component along the normal. *)
Theorem reflectVector_real_mirror (v n : Vector R) :
  dot n n = 1 ->
  reflectVector (reflectVector v n) n = v
  /\ dot (reflectVector v n) (reflectVector v n) = dot v v
  /\ dot (reflectVector v n) n = dot v n.
Proof.
  intros Hn. pose proof (@dot_reflectVector_real v n Hn) as Hd.
  split; [|split; [|exact Hd]].
  - unfold reflectVector at 1. rewrite Hd.
    destruct v as [vx vy vz], n as [nx ny nz].
    unfold reflectVector, dot, Vector_sub, Vector_scale. simpl.
    f_equal; ring.
  - destruct v as [vx vy vz], n as [nx ny nz].
    unfold reflectVector, dot, Vector_sub, Vector_scale in *. simpl in *.
    set (s := vx * nx + vy * ny + vz * nz) in *.
    replace ((nx * 2 * s - vx) * (nx * 2 * s - vx)
             + (ny * 2 * s - vy) * (ny * 2 * s - vy)
             + (nz * 2 * s - vz) * (nz * 2 * s - vz))
      with (4 * s * s * (nx * nx + ny * ny + nz * nz)
            - 4 * s * (vx * nx + vy * ny + vz * nz)
            + (vx * vx + vy * vy + vz * vz)) by ring.
    rewrite Hn. fold s. ring.
Qed.

(** X12: over the reals, the direction that [refractVector] returns for
    a unit normal and a unit incident direction is a unit vector. *)
Theorem refractVector_real_unit (nrm incident t : Vector R) (n1 n2 : R) :
  dot nrm nrm = 1 -> dot incident incident = 1 ->
  refractVector nrm incident n1 n2 = Some t ->
  dot t t = 1.
Proof.
  intros Hn Hi. unfold refractVector.
  cbn [d_div d_mul d_sub d_add d_opp d_sqrt d_ltb d_of_int R_Double].
  set (n := n1 / n2). set (c := - dot nrm incident).
  set (sinT2 := n * n * (1 - c * c)).
  unfold Rltb. destruct (Rlt_dec 1 sinT2) as [|Hno]; [discriminate|].
  intros E. injection E as <-.
  set (cosT := sqrt (1 - sinT2)).
  assert (Hsq : cosT * cosT = 1 - sinT2) by (apply sqrt_sqrt; lra).
  assert (Hc : dot incident nrm = - c).
  { unfold c. destruct nrm, incident. unfold dot. simpl. ring. }
  set (k := n * c - cosT).
  destruct nrm as [nx ny nz], incident as [ix iy iz].
  unfold dot, Vector_add, Vector_scale in *. simpl in *.
  replace ((ix * n + nx * k) * (ix * n + nx * k)
           + (iy * n + ny * k) * (iy * n + ny * k)
           + (iz * n + nz * k) * (iz * n + nz * k))
    with (n * n * (ix * ix + iy * iy + iz * iz)
          + 2 * n * k * (ix * nx + iy * ny + iz * nz)
          + k * k * (nx * nx + ny * ny + nz * nz)) by ring.
  rewrite Hn, Hi, Hc. unfold k.
  replace (n * n * 1 + 2 * n * (n * c - cosT) * - c
           + (n * c - cosT) * (n * c - cosT) * 1)
    with (n * n * (1 - c * c) + cosT * cosT) by ring.
  rewrite Hsq. unfold sinT2. ring.
Qed.

(** X13: over the reals, between media of the same index the ray is not
    bent and nothing is reflected: for an incident direction against
    the normal, [refractVector] returns the incident direction and
    [getReflectance] returns 0. *)
Theorem same_index_is_no_interface (nrm incident : Vector R) (n0 : R) :
  n0 <> 0 -> 0 < - dot nrm incident ->
  refractVector nrm incident n0 n0 = Some incident
  /\ getReflectance nrm incident n0 n0 = 0.
Proof.
  intros Hn0 Hc.
  unfold refractVector, getReflectance.
  cbn [d_div d_mul d_sub d_add d_opp d_sqrt d_ltb d_of_int R_Double].
  set (c := - dot nrm incident) in *.
  replace (n0 / n0) with 1 by (field; exact Hn0).
  replace (1 * 1 * (1 - c * c)) with (1 - c * c) by ring.
  unfold Rltb. destruct (Rlt_dec 1 (1 - c * c)) as [Hbad|_]; [nra|].
  replace (1 - (1 - c * c)) with (c * c) by ring.
  rewrite sqrt_square by lra.
  split.
  - f_equal. destruct nrm as [nx ny nz], incident as [ix iy iz].
    unfold Vector_add, Vector_scale. simpl. f_equal; ring.
  - replace (n0 * c - n0 * c) with 0 by ring.
    unfold Rdiv. rewrite !Rmult_0_l. lra.
Qed.

(** X14: over the reals, at normal incidence ([cosI = 1]) and for
    positive indices, [getReflectance] is the classical
    [((n1 - n2) / (n1 + n2))^2]; in particular it is the same from
    either side of the interface. *)
Theorem getReflectance_real_normal_incidence
    (nrm incident : Vector R) (n1 n2 : R) :
  0 < n1 -> 0 < n2 -> - dot nrm incident = 1 ->
  getReflectance nrm incident n1 n2
    = (n1 - n2) / (n1 + n2) * ((n1 - n2) / (n1 + n2))
  /\ getReflectance nrm incident n1 n2 = getReflectance nrm incident n2 n1.
Proof.
  intros Hn1 Hn2 Hc.
  assert (Hform : forall a c : R, 0 < a -> 0 < c ->
            getReflectance nrm incident a c
            = (a - c) / (a + c) * ((a - c) / (a + c))).
  { intros a c Ha Hc'. unfold getReflectance.
    cbn [d_div d_mul d_sub d_add d_opp d_sqrt d_ltb d_of_int R_Double].
    rewrite Hc.
    replace (a / c * (a / c) * (1 - 1 * 1)) with 0 by (field; lra).
    unfold Rltb. destruct (Rlt_dec 1 0) as [Hbad|_]; [lra|].
    replace (1 - 0) with 1 by ring. rewrite sqrt_1. field. lra. }
  split; [now apply Hform|].
  rewrite (Hform n1 n2 Hn1 Hn2), (Hform n2 n1 Hn2 Hn1). field. lra.
Qed.
End VectorsReal.

(* ================================================================= *)
(** ** The cost and the coverage of a render pass *)

Section RenderCost.
Context {D : Type} `{Double D} `{Platform D}.
Local Open Scope double_scope.





Variable rt : RayTracer D.


Section PerRay.
(** [hi] bounds the rays that tracing one primary ray costs. *)
Variable hi : Z.
Hypothesis castRay_top_cost :
  forall q s, reflectionsRemaining q = maxReflections rt ->
    exists c n, castRay_top rt q s = Some (c, afterRays n s)
                /\ (1 <= n <= hi)%Z.




End PerRay.
End RenderCost.

Section RenderPass.
Context {D : Type} `{Double D} `{Platform D}.
Local Open Scope double_scope.












End RenderPass.

Section EmptyScene.
Context {D : Type} `{Double D} `{Platform D}.
Local Open Scope double_scope.

Variable rt : RayTracer D.
Hypothesis no_objects : objects rt = [].

(** The two weights of the averages leave a zero channel at zero. *)
Hypothesis depth_weight_keeps_zero :
  d_of_int 0
  + d_of_int 0 * float_div (float_of_int 1) (float_of_int (depthComplexity rt))
  = d_of_int 0.
Hypothesis sample_weight_keeps_zero :
  d_of_int 0
  + d_of_int 0 * (d_of_int 1 / d_of_int (superSamples rt * superSamples rt))
  = d_of_int 0.




End EmptyScene.

Section EmptySceneRender.
Context {D : Type} `{Double D} `{Platform D}.
Local Open Scope double_scope.

End EmptySceneRender.

(* ================================================================= *)
(** ** The scene reader *)

Section ReaderTheorems.
Context {D : Type} `{Double D} {Stream : Type} `{IStream D Stream}
        `{SceneLibrary D}.
Local Open Scope string_scope.

Lemma Materials_find_app_old (name : String.string) (m : Material D)
    (ms extra : Materials D) :
  Materials_find name ms = Some m ->
  Materials_find name (ms ++ extra) = Some m.
Proof.
  induction ms as [|[k m0] rest IH]; simpl; [discriminate|].
  destruct (String.eqb k name); [trivial | exact IH].
Qed.

Lemma Materials_find_app_fresh (name : String.string) (m : Material D)
    (ms : Materials D) :
  Materials_find name ms = None ->
  Materials_find name (ms ++ [(name, m)]) = Some m.
Proof.
  induction ms as [|[k m0] rest IH]; simpl.
  - now rewrite String.eqb_refl.
  - destruct (String.eqb k name); [discriminate | exact IH].
Qed.

Lemma Materials_find_lowercase (name : String.string) (m : Material D)
    (ms : Materials D) :
  Materials_lowercase ms -> Materials_find name ms = Some m ->
  hasUpper name = false.
Proof.
  intros Hlow. induction Hlow as [|[k m0] rest Hk _ IH]; simpl;
    [discriminate|].
  destruct (String.eqb k name) eqn:E; [|exact IH].
  apply String.eqb_eq in E. subst. intros _. exact Hk.
Qed.

Lemma lowercase_is_no_keyword (name : String.string) :
  hasUpper name = false ->
  String.eqb name "FlatColor" = false /\ String.eqb name "Checkerboard" = false.
Proof.
  intros Hlow. split.
  - destruct (String.eqb name "FlatColor") eqn:E; [|reflexivity].
    apply String.eqb_eq in E. subst. discriminate.
  - destruct (String.eqb name "Checkerboard") eqn:E; [|reflexivity].
    apply String.eqb_eq in E. subst. discriminate.
Qed.

Lemma addMaterial_Parsed (input in' : Stream) (ms ms' : Materials D) :
  addMaterial input ms = Parsed (ms', in') ->
  hasUpper (fst (get_string input)) = false
  /\ Materials_find (fst (get_string input)) ms = None
  /\ exists m,
       readMaterial (snd (get_string input)) ms = Parsed (m, in')
       /\ ms' = ms ++ [(fst (get_string input), m)].
Proof.
  unfold addMaterial, Materials_insert, Materials_count.
  destruct (get_string input) as [name in1]. simpl.
  destruct (hasUpper name); [discriminate|].
  destruct (Materials_find name ms); [discriminate|]. simpl.
  destruct (readMaterial in1 ms) as [[m in2]|]; [|discriminate].
  intros E. injection E as <- <-. eauto.
Qed.

Lemma addMaterial_keeps (input in' : Stream) (ms ms' : Materials D) :
  addMaterial input ms = Parsed (ms', in') ->
  (forall name m, Materials_find name ms = Some m ->
                  Materials_find name ms' = Some m)
  /\ (Materials_lowercase ms -> Materials_lowercase ms').
Proof.
  intros E. apply addMaterial_Parsed in E as (Hlow & _ & m & _ & ->). split.
  - intros name m0. apply Materials_find_app_old.
  - intros Hall. apply Forall_app. split; [exact Hall|].
    constructor; [exact Hlow | constructor].
Qed.

(** X17: what [addMaterial] registers.  When [addMaterial] returns, the
    name it read holds no upper-case letter and was not registered
    before; the map has gained exactly that name, bound to the material
    that [readMaterial] read after it; every name registered before keeps
    its material; and if no key held an upper-case letter before, none
    does after. *)
Theorem addMaterial_registers (input in' : Stream) (ms ms' : Materials D) :
  addMaterial input ms = Parsed (ms', in') ->
  hasUpper (fst (get_string input)) = false
  /\ Materials_find (fst (get_string input)) ms = None
  /\ (exists m,
        readMaterial (snd (get_string input)) ms = Parsed (m, in')
        /\ ms' = ms ++ [(fst (get_string input), m)]
        /\ Materials_find (fst (get_string input)) ms' = Some m)
  /\ (forall name m, Materials_find name ms = Some m ->
                     Materials_find name ms' = Some m)
  /\ (Materials_lowercase ms -> Materials_lowercase ms').
Proof.
  intros E. destruct (addMaterial_keeps _ _ E) as [Hold Hkeys].
  apply addMaterial_Parsed in E as (Hlow & Hfresh & m & Hread & ->).
  split; [exact Hlow|]. split; [exact Hfresh|]. split; [|split].
  - exists m. split; [exact Hread|]. split; [reflexivity|].
    now apply Materials_find_app_fresh.
  - exact Hold.
  - exact Hkeys.
Qed.

(** X18: a name that [addMaterial] rejects.  A name with an upper-case
    letter is refused as invalid, and a name that is registered is
    refused as a duplicate, in both cases before anything of the material
    body is read; so the two keywords [FlatColor] and [Checkerboard] can
    never be registered as names. *)
Theorem addMaterial_refuses (input : Stream) (ms : Materials D) :
  (hasUpper (fst (get_string input)) = true ->
   addMaterial input ms
   = Fatal (String.append "Invalid material name: " (fst (get_string input))))
  /\ (hasUpper (fst (get_string input)) = false ->
      Materials_find (fst (get_string input)) ms <> None ->
      addMaterial input ms
      = Fatal (String.append "Duplicate material name: "
                 (fst (get_string input))))
  /\ (fst (get_string input) = "FlatColor"
      \/ fst (get_string input) = "Checkerboard" ->
      exists message, addMaterial input ms = Fatal message).
Proof.
  unfold addMaterial, Materials_count.
  destruct (get_string input) as [name in1]. simpl.
  split; [|split].
  - now intros ->.
  - intros -> Hdup.
    destruct (Materials_find name ms); [reflexivity | contradiction].
  - intros [->| ->]; eexists; reflexivity.
Qed.

(** X19: a registered name always resolves to its material.  In a map
    whose keys hold no upper-case letter (all that [addMaterial] can
    build), a material body that consists of a registered name makes
    [readMaterial] return the material registered under that name,
    having read just the name: no key is shadowed by the keywords
    [FlatColor] and [Checkerboard].  A word that is neither a keyword
    nor a registered name is fatal. *)
Theorem readMaterial_resolves_names (input : Stream) (ms : Materials D) :
  Materials_lowercase ms ->
  (forall m, Materials_find (fst (get_string input)) ms = Some m ->
             readMaterial input ms = Parsed (m, snd (get_string input)))
  /\ (String.eqb (fst (get_string input)) "FlatColor" = false ->
      String.eqb (fst (get_string input)) "Checkerboard" = false ->
      Materials_find (fst (get_string input)) ms = None ->
      readMaterial input ms
      = Fatal (String.append "Type not found: " (fst (get_string input)))).
Proof.
  intros Hlow. unfold readMaterial.
  destruct (get_string input) as [name in1]. simpl. split.
  - intros m Hfind.
    destruct (@lowercase_is_no_keyword name
                (@Materials_find_lowercase name m ms Hlow Hfind)) as [-> ->].
    now rewrite Hfind.
  - intros -> -> ->. reflexivity.
Qed.






(** X21: an empty scene and an unknown directive.  If the stream is not
    good after the first extraction (an empty file), [readScene] returns
    the scene as it was.  If it is good and the first word names no
    directive and does not start a comment, [readScene] ends with the
    message "Type not found" and the word. *)
Theorem readScene_first_word (turns : nat) (input : Stream)
    (st : SceneState D) :
  (good (snd (get_string input)) = false ->
   readScene turns input st = Some (Parsed (st, snd (get_string input))))
  /\ (good (snd (get_string input)) = true ->
      startsWithHash (fst (get_string input)) = false ->
      ~ In (fst (get_string input))
           ["material"; "sphere"; "light"; "dispersion"; "maxReflections";
            "cameraUp"; "cameraPosition"; "cameraLookAt"; "imageScale"] ->
      readScene (S turns) input st
      = Some (Fatal (String.append "Type not found: "
                       (fst (get_string input))))).
Proof.
  unfold readScene. destruct (get_string input) as [type in1]. simpl. split.
  - intros G. destruct turns; simpl; now rewrite G.
  - intros -> Hhash Hnot. unfold directive. rewrite Hhash.
    repeat match goal with
           | |- context [String.eqb type ?k] =>
               let E := fresh "E" in
               destruct (String.eqb type k) eqn:E;
               [apply String.eqb_eq in E; exfalso; apply Hnot; subst;
                simpl; tauto|]
           end.
    reflexivity.
Qed.
End ReaderTheorems.

(* ================================================================= *)
(** ** Instances of the further properties *)

Section FurtherInstances.
Import Scenes Inputs.
Local Open Scope string_scope.
Local Open Scope float_scope.

(** X3, an instance: a wall at distance 3 shadows a light at distance 5,
    and still does among more objects and for a light at distance 7. *)
Lemma isInShadow_monotone_witness :
  isInShadow (tracer 1 5 [wallAt 3] []) downRay 5 = true
  /\ isInShadow threeObjects downRay 7 = true.
Proof.
  split; [reflexivity|].
  apply (@isInShadow_monotone float _ _ (tracer 1 5 [wallAt 3] [])
           threeObjects downRay 5 7).
  - intros o [<-|[]]. right. right. now left.
  - right. reflexivity.
  - reflexivity.
Defined.

(** X4, an instance: hits at 7 and 3 and a miss; the one at 3 wins. *)
Lemma getClosestIntersection_first_nearest_witness :
  exists before o after,
    objects threeObjects = before ++ o :: after
    /\ getClosestIntersection threeObjects downRay = intersect o downRay
    /\ hitBelow downRay d_max o
    /\ (forall o', In o' before -> hitBelow downRay d_max o' ->
          (distance (intersect o downRay)
             <? distance (intersect o' downRay))%D = true)
    /\ (forall o', In o' after ->
          didIntersect (intersect o' downRay) = true ->
          (distance (intersect o' downRay)
             <? distance (intersect o downRay))%D = false).
Proof.
  apply (@getClosestIntersection_first_nearest float _ _ _ _
           threeObjects downRay).
  exists (wallAt 7). split; [now left|]. split; reflexivity.
Defined.

(** X5, an instance: the nearest hit is at distance 3, the light at 5. *)
Lemma isInShadow_is_nearest_hit_test_witness :
  isInShadow threeObjects downRay 5
  = didIntersect (getClosestIntersection threeObjects downRay)
    && (distance (getClosestIntersection threeObjects downRay) <? 5)%D.
Proof.
  apply (@isInShadow_is_nearest_hit_test float _ _ _ _ threeObjects downRay 5).
  right. reflexivity.
Defined.

(** X8, an instance: a ray with three bounces left hits a matte wall. *)
Lemma castRay_single_ray_witness :
  exists c, castRay walled 1 downRay start = Some (c, afterRays 1 start).
Proof.
  apply (@castRay_single_ray float _ _ walled 0 downRay start).
  - reflexivity.
  - left. reflexivity.
Defined.


(** X17, an instance: registering [glass] in an empty map. *)
Lemma addMaterial_registers_witness :
  Materials_find "glass" glassEntry
  = Some (FlatColor_new (mkColor 1 1 1) (-1) 0.5 1.5)
  /\ Materials_lowercase glassEntry.
Proof.
  assert (E0 : addMaterial (List.tl sceneText) []
               = Parsed (glassEntry, List.skipn 9 sceneText)) by reflexivity.
  destruct (@addMaterial_registers float (list Token) _ _
              (List.tl sceneText) (List.skipn 9 sceneText) [] glassEntry E0)
    as (_ & _ & (m & _ & E & Hfind) & _ & Hlow).
  split; [|apply Hlow; constructor].
  reflexivity.
Defined.

(** X19, an instance: the body of the sphere refers to [glass]. *)
Lemma readMaterial_resolves_names_witness :
  readMaterial (List.skipn 14 sceneText) glassEntry
  = Parsed (FlatColor_new (mkColor 1 1 1) (-1) 0.5 1.5,
            List.skipn 15 sceneText).
Proof.
  assert (Hlow : Materials_lowercase glassEntry) by (repeat constructor).
  exact (proj1 (@readMaterial_resolves_names float (list Token) _ _
                  (List.skipn 14 sceneText) glassEntry Hlow)
           (FlatColor_new (mkColor 1 1 1) (-1) 0.5 1.5) eq_refl).
Defined.

End FurtherInstances.

Section FurtherInstancesReal.
Import Inputs.
Local Open Scope R_scope.

(** X9, an instance: two lights of intensity 1. *)
Lemma diffuse_unit_intensities_real_witness :
  fst (diffuseAndSpecularColors realTracer realHit realWhite)
  = diffuse_asSpecified realTracer realHit realWhite.
Proof.
  apply (@diffuse_unit_intensities_real real_platform realTracer realHit
           realWhite).
  intros light [<-|[<-|[]]]; reflexivity.
Defined.

(** X11, an instance: the mirror of [(1, 2, 3)] about the z axis. *)
Lemma reflectVector_real_mirror_witness :
  reflectVector (reflectVector (mkVector 1 2 3) realUp) realUp = mkVector 1 2 3
  /\ dot (reflectVector (mkVector 1 2 3) realUp)
         (reflectVector (mkVector 1 2 3) realUp)
     = dot (mkVector 1 2 3) (mkVector 1 2 3)
  /\ dot (reflectVector (mkVector 1 2 3) realUp) realUp
     = dot (mkVector 1 2 3) realUp.
Proof.
  apply (@reflectVector_real_mirror (mkVector 1 2 3) realUp).
  unfold dot, realUp; simpl; lra.
Defined.

(** X12, an instance: from air into a medium of index 2, head on. *)
Lemma refractVector_real_unit_witness :
  exists t, refractVector realUp realDown 1 2 = Some t /\ dot t t = 1.
Proof.
  assert (E : exists t, refractVector realUp realDown 1 2 = Some t).
  { unfold refractVector, realUp, realDown, dot. simpl. unfold Rltb.
    destruct (Rlt_dec 1 _) as [Hbad|_]; [exfalso; lra | eauto]. }
  destruct E as [t E]. exists t. split; [exact E|].
  apply (@refractVector_real_unit realUp realDown t 1 2).
  - unfold dot, realUp; simpl; lra.
  - unfold dot, realDown; simpl; lra.
  - exact E.
Defined.

(** X13, an instance: index 2 on both sides, head on. *)
Lemma same_index_is_no_interface_witness :
  refractVector realUp realDown 2 2 = Some realDown
  /\ getReflectance realUp realDown 2 2 = 0.
Proof.
  apply (@same_index_is_no_interface realUp realDown 2).
  - lra.
  - unfold dot, realUp, realDown; simpl; lra.
Defined.

(** X14, an instance: air and a medium of index 2, head on. *)
Lemma getReflectance_real_normal_incidence_witness :
  getReflectance realUp realDown 1 2 = (1 - 2) / (1 + 2) * ((1 - 2) / (1 + 2))
  /\ getReflectance realUp realDown 1 2 = getReflectance realUp realDown 2 1.
Proof.
  apply (@getReflectance_real_normal_incidence realUp realDown 1 2).
  - lra.
  - lra.
  - unfold dot, realUp, realDown; simpl; lra.
Defined.
End FurtherInstancesReal.
